(** * Solidity compiler invocation (hardhat-core) and chain resolution (hardhat-verify)

    A shallow embedding of
    [packages/hardhat-core/src/internal/solidity/compiler/index.ts]
    (classes [Compiler] and [NativeCompiler]) together with the chain
    resolution routine exercised by
    [packages/hardhat-verify/test/unit/etherscan.ts].

    JavaScript values that the code only passes around are kept abstract;
    everything the code branches on (the optional version string, the
    module system's extension table, thrown values, the file system
    entries touched by [mkdirSync]) is explicit state. *)

From Stdlib Require Import NArith Ascii String List DecimalString Lia.
From stdpp Require Import base option gmap strings list.

Set Warnings "-register-all".

Local Open Scope string_scope.
Local Open Scope N_scope.
Local Open Scope list_scope.

(** ** Thrown values and results *)

(** Modelled from the spec: the error catalogue [ERRORS] of
    [core/errors-list] is not among the sources.  Only the descriptor the
    compiler module names is given a constructor of its own. *)
Inductive ErrorDescriptor : Type :=
  | SOLC_CANT_RUN_NATIVE_COMPILER
  | OTHER_DESCRIPTOR (number : N).

(** What a JavaScript [throw] (or a promise rejection) carries.  [JsError]
    stands for the built-in and Node.js error objects ([TypeError],
    [SyntaxError], a system error with its code, the [ExecException] handed
    to the [execFile] callback); [HardhatError] is the class of
    [core/errors], built as [new HardhatError(descriptor, {}, parent)]. *)
Inductive Thrown : Type :=
  | JsError (name message : string)
  | HardhatError (descriptor : ErrorDescriptor) (parent : option Thrown).

(** The outcome of evaluating an expression, or of awaiting a promise that
    settles: a value, or the thrown value / rejection reason. *)
Inductive Result (A : Type) : Type :=
  | Return (a : A)
  | Throw (e : Thrown).
Arguments Return {A} a.
Arguments Throw {A} e.

Definition is_Return {A} (r : Result A) : bool :=
  match r with Return _ => true | Throw _ => false end.

(** The [parent] property of a thrown value ([undefined] for errors that are
    not [HardhatError]s). *)
Definition parent_of (e : Thrown) : option Thrown :=
  match e with
  | HardhatError _ p => p
  | JsError _ _ => None
  end.

Definition is_HardhatError (e : Thrown) : bool :=
  match e with HardhatError _ _ => true | JsError _ _ => false end.

(** Computations over a mutable world [S] that may throw.  A throw keeps the
    state reached so far: JavaScript does not roll back effects. *)
Definition M (S A : Type) : Type := S -> S * Result A.

Definition ret {S A} (a : A) : M S A := fun s => (s, Return a).
Definition throw {S A} (e : Thrown) : M S A := fun s => (s, Throw e).
Definition bind {S A B} (m : M S A) (k : A -> M S B) : M S B :=
  fun s => match m s with
           | (s', Return a) => k a s'
           | (s', Throw e) => (s', Throw e)
           end.
Definition get {S} : M S S := fun s => (s, Return s).
Definition modify {S} (f : S -> S) : M S unit := fun s => (f s, Return tt).
Definition lift {S A} (r : Result A) : M S A := fun s => (s, r).

(** [try { body } catch (e) { handler e }]. *)
Definition try_catch {S A} (body : M S A) (handler : Thrown -> M S A) : M S A :=
  fun s => match body s with
           | (s', Throw e) => handler e s'
           | (s', Return a) => (s', Return a)
           end.

Declare Scope js_scope.
Delimit Scope js_scope with js.
Notation "'let*' x := m 'in' k" := (bind m (fun x => k))
  (at level 10, x pattern, m at level 100, k at level 200) : js_scope.
Notation "m ;; k" := (bind m (fun _ => k))
  (at level 100, k at level 200, right associativity) : js_scope.

(** ** The [semver] package

    [semver.gte(a, b)] builds [new SemVer(a)] and [new SemVer(b)] in strict
    mode and compares them.  The constructor throws a [TypeError] on a string
    longer than 256 characters or one that does not match the package's
    [FULL] pattern

      v? NUM . NUM . NUM ( - PRE ( . PRE )* )? ( + BUILD ( . BUILD )* )?

    after trimming, where NUM is [0|[1-9][0-9]*], PRE is NUM or an
    identifier over [0-9A-Za-z-] with a non-digit in it, and BUILD is a
    non-empty identifier over [0-9A-Za-z-].  A string here is the UTF-8
    encoding of the JavaScript string: [version.length] counts UTF-16 code
    units ([utf16_length]) and [version.trim()] removes the white space and
    line terminators of ECMAScript, the ones outside ASCII included. *)
Module semver.

Definition MAX_LENGTH : nat := 256.
Definition MAX_SAFE_INTEGER : N := 9007199254740991.

Inductive Identifier : Type :=
  | Numeric (n : N)
  | Alphanumeric (s : string).

Record SemVer : Type := mkSemVer {
  major : N;
  minor : N;
  patch : N;
  prerelease : list Identifier;
  build : list string
}.

Definition is_digit (c : ascii) : bool :=
  let n := N_of_ascii c in (48 <=? n) && (n <=? 57).

Definition is_letter_dash_number (c : ascii) : bool :=
  let n := N_of_ascii c in
  ((48 <=? n) && (n <=? 57)) || ((65 <=? n) && (n <=? 90))
  || ((97 <=? n) && (n <=? 122)) || (n =? 45).

Definition is_space (c : ascii) : bool :=
  let n := N_of_ascii c in ((9 <=? n) && (n <=? 13)) || (n =? 32).

Fixpoint all_chars (p : ascii -> bool) (s : string) : bool :=
  match s with
  | EmptyString => true
  | String c r => p c && all_chars p r
  end.

(** [version.length]: one unit per code point, two for a code point
    outside the basic plane (a four-byte sequence); continuation bytes
    count for nothing. *)
Fixpoint utf16_length (s : string) : nat :=
  match s with
  | EmptyString => 0%nat
  | String c r =>
      let n := N_of_ascii c in
      let units := if (128 <=? n) && (n <? 192) then 0%nat
                   else if 240 <=? n then 2%nat else 1%nat in
      (units + utf16_length r)%nat
  end.

(** The two-byte white space: U+00A0. *)
Definition is_space2 (a b : N) : bool := (a =? 194) && (b =? 160).

(** The three-byte white space and line terminators: U+1680,
    U+2000..U+200A, U+2028, U+2029, U+202F, U+205F, U+3000, U+FEFF. *)
Definition is_space3 (a b c : N) : bool :=
  ((a =? 225) && (b =? 154) && (c =? 128))
  || ((a =? 226) && (b =? 128)
      && (((128 <=? c) && (c <=? 138)) || (c =? 168) || (c =? 169) || (c =? 175)))
  || ((a =? 226) && (b =? 129) && (c =? 159))
  || ((a =? 227) && (b =? 128) && (c =? 128))
  || ((a =? 239) && (b =? 187) && (c =? 191)).

(** What follows a leading white space character, if there is one. *)
Definition after_space (s : string) : option string :=
  match s with
  | EmptyString => None
  | String c1 r1 =>
      if is_space c1 then Some r1
      else match r1 with
           | EmptyString => None
           | String c2 r2 =>
               if is_space2 (N_of_ascii c1) (N_of_ascii c2) then Some r2
               else match r2 with
                    | EmptyString => None
                    | String c3 r3 =>
                        if is_space3 (N_of_ascii c1) (N_of_ascii c2) (N_of_ascii c3)
                        then Some r3 else None
                    end
           end
  end.

(** The same on a string read backwards: what precedes a trailing white
    space character. *)
Definition before_space (reversed : string) : option string :=
  match reversed with
  | EmptyString => None
  | String c1 r1 =>
      if is_space c1 then Some r1
      else match r1 with
           | EmptyString => None
           | String c2 r2 =>
               if is_space2 (N_of_ascii c2) (N_of_ascii c1) then Some r2
               else match r2 with
                    | EmptyString => None
                    | String c3 r3 =>
                        if is_space3 (N_of_ascii c3) (N_of_ascii c2) (N_of_ascii c1)
                        then Some r3 else None
                    end
           end
  end.

(** Removes white space characters for as long as [next] finds one; each
    removal shortens the string, so its length is fuel enough. *)
Fixpoint strip (next : string -> option string) (fuel : nat) (s : string) : string :=
  match fuel with
  | O => s
  | S fuel' =>
      match next s with
      | Some r => strip next fuel' r
      | None => s
      end
  end.

Fixpoint reverse_onto (s acc : string) : string :=
  match s with
  | EmptyString => acc
  | String c r => reverse_onto r (String c acc)
  end.

Definition reverse (s : string) : string := reverse_onto s EmptyString.

(** The string with the given bytes. *)
Fixpoint of_bytes (bytes : list N) : string :=
  match bytes with
  | [] => EmptyString
  | b :: rest => String (ascii_of_N b) (of_bytes rest)
  end.

Definition trim_start (s : string) : string := strip after_space (String.length s) s.

Definition trim_end (s : string) : string :=
  reverse (strip before_space (String.length s) (reverse s)).

Definition trim (s : string) : string := trim_end (trim_start s).

(** [String.prototype.split] on a one-character separator. *)
Fixpoint split (sep : ascii) (s : string) : list string :=
  match s with
  | EmptyString => [EmptyString]
  | String c r =>
      if Ascii.eqb c sep then EmptyString :: split sep r
      else match split sep r with
           | h :: t => String c h :: t
           | [] => [String c EmptyString]
           end
  end.

(** The text before the first [sep] and, when there is one, the text
    after it. *)
Fixpoint cut (sep : ascii) (s : string) : string * option string :=
  match s with
  | EmptyString => (EmptyString, None)
  | String c r =>
      if Ascii.eqb c sep then (EmptyString, Some r)
      else let '(h, t) := cut sep r in (String c h, t)
  end.

Definition digit_value (c : ascii) : N := N_of_ascii c - 48.

Fixpoint number_of_digits (acc : N) (s : string) : N :=
  match s with
  | EmptyString => acc
  | String c r => number_of_digits (10 * acc + digit_value c) r
  end.

(** NUMERICIDENTIFIER: [0|[1-9]\d*]. *)
Definition numeric_identifier (s : string) : option N :=
  match s with
  | EmptyString => None
  | String c r =>
      if all_chars is_digit s
      then if Ascii.eqb c "0" && negb (String.eqb r EmptyString) then None
           else Some (number_of_digits 0 s)
      else None
  end.

(** PRERELEASEIDENTIFIER, and the conversion the constructor applies to
    it: an all-digit identifier below [MAX_SAFE_INTEGER] becomes a
    number, anything else stays a string. *)
Definition prerelease_identifier (s : string) : option Identifier :=
  match s with
  | EmptyString => None
  | String _ _ =>
      if all_chars is_digit s
      then match numeric_identifier s with
           | Some n => if n <? MAX_SAFE_INTEGER then Some (Numeric n)
                       else Some (Alphanumeric s)
           | None => None
           end
      else if all_chars is_letter_dash_number s then Some (Alphanumeric s)
      else None
  end.

(** BUILDIDENTIFIER: [[0-9A-Za-z-]+]. *)
Definition build_identifier (s : string) : option string :=
  match s with
  | EmptyString => None
  | String _ _ => if all_chars is_letter_dash_number s then Some s else None
  end.

Fixpoint traverse {A B} (f : A -> option B) (l : list A) : option (list B) :=
  match l with
  | [] => Some []
  | x :: r =>
      match f x, traverse f r with
      | Some y, Some ys => Some (y :: ys)
      | _, _ => None
      end
  end.

Definition strip_v (s : string) : string :=
  match s with
  | String c r => if Ascii.eqb c "v" then r else s
  | EmptyString => s
  end.

Definition invalid_version (version : string) : Thrown :=
  JsError "TypeError" ("Invalid Version: " +:+ version).

(** [new SemVer(version)], strict mode. *)
Definition parse (version : string) : Result SemVer :=
  if Nat.ltb MAX_LENGTH (utf16_length version)
  then Throw (JsError "TypeError" "version is longer than 256 characters")
  else
    let '(front, build_text) := cut "+" (strip_v (trim version)) in
    let '(main, pre_text) := cut "-" front in
    let pre := match pre_text with
               | None => Some []
               | Some t => traverse prerelease_identifier (split "." t)
               end in
    let bld := match build_text with
               | None => Some []
               | Some t => traverse build_identifier (split "." t)
               end in
    match traverse numeric_identifier (split "." main), pre, bld with
    | Some [ma; mi; pa], Some pre, Some bld =>
        if MAX_SAFE_INTEGER <? ma
        then Throw (JsError "TypeError" "Invalid major version")
        else if MAX_SAFE_INTEGER <? mi
        then Throw (JsError "TypeError" "Invalid minor version")
        else if MAX_SAFE_INTEGER <? pa
        then Throw (JsError "TypeError" "Invalid patch version")
        else Return (mkSemVer ma mi pa pre bld)
    | _, _, _ => Throw (invalid_version version)
    end.

(** [compareIdentifiers]: numbers before strings, numbers by value,
    strings by code unit.  (An all-digit identifier too large to be a
    number is kept as a string and compared as one; the versions this
    program compares against carry no prerelease identifiers.) *)
Definition compareIdentifiers (a b : Identifier) : comparison :=
  match a, b with
  | Numeric x, Numeric y => N.compare x y
  | Numeric _, Alphanumeric _ => Lt
  | Alphanumeric _, Numeric _ => Gt
  | Alphanumeric x, Alphanumeric y => String.compare x y
  end.

Definition compareMain (a b : SemVer) : comparison :=
  match N.compare (major a) (major b) with
  | Eq => match N.compare (minor a) (minor b) with
          | Eq => N.compare (patch a) (patch b)
          | c => c
          end
  | c => c
  end.

(** The loop of [comparePre] over two non-empty identifier lists. *)
Fixpoint comparePreLoop (a b : list Identifier) : comparison :=
  match a, b with
  | [], [] => Eq
  | _ :: _, [] => Gt
  | [], _ :: _ => Lt
  | x :: a', y :: b' =>
      match compareIdentifiers x y with
      | Eq => comparePreLoop a' b'
      | c => c
      end
  end.

Definition comparePre (a b : SemVer) : comparison :=
  match prerelease a, prerelease b with
  | _ :: _, [] => Lt
  | [], _ :: _ => Gt
  | [], [] => Eq
  | pa, pb => comparePreLoop pa pb
  end.

Definition compare (a b : SemVer) : comparison :=
  match compareMain a b with
  | Eq => comparePre a b
  | c => c
  end.

Definition gte (a b : string) : Result bool :=
  match parse a with
  | Throw e => Throw e
  | Return va =>
      match parse b with
      | Throw e => Throw e
      | Return vb =>
          Return (match compare va vb with Lt => false | _ => true end)
      end
  end.

End semver.

(** ** [class Compiler]: the compiler loaded into the current process *)
Module Compiler.

(** A value of [Module._extensions[ext]]: nothing, a loader installed by
    the host (Node's own, or an instrumenting one such as babel/register),
    or the function [_loadCompilerSources] installs, which reads the file
    and hands its text to [module._compile]. *)
Inductive Hook : Type :=
  | undefined
  | HostHook (id : nat)
  | RawLoader.

#[global] Instance Hook_eq_dec : EqDecision Hook.
Proof. solve_decision. Defined.

(** [Module._extensions] itself is [undefined] when Hardhat is bundled. *)
Abbreviation Extensions := (option (gmap string Hook)).

(** Reading a property of a JavaScript object: a missing key reads as
    [undefined]. *)
Definition read (table : gmap string Hook) (key : string) : Hook :=
  default undefined (table !! key).

(** What the instance and the module system did, in order. *)
Inductive Event : Type :=
  | EvSetHook (ext : string) (h : Hook)
  | EvRequire (path : string) (table : Extensions)
  | EvSolcCompile (ref : nat) (text : string).

(** The handle [solcWrapper] returns: an object (its identity is [ref])
    whose [compile] method maps a request text to a response text or
    throws. *)
Record Solc : Type := mkSolc {
  ref : nat;
  solc_compile : string -> Result string
}.

(** The instance's mutable field together with the process-wide state it
    touches. *)
Record State : Type := mkState {
  _loadedSolc : option Solc;
  _extensions : Extensions;
  next_ref : nat;
  trace : list Event
}.

Definition log (e : Event) : M State unit :=
  modify (fun s => mkState (_loadedSolc s) (_extensions s) (next_ref s) (trace s ++ [e])).

(** [Module._extensions[ext] = h], on a defined table. *)
Definition set_hook (ext : string) (h : Hook) : M State unit :=
  (modify (fun s => mkState (_loadedSolc s) (insert ext h <$> _extensions s)
                            (next_ref s) (trace s)) ;;
   log (EvSetHook ext h))%js.

Definition set_loadedSolc (solc : Solc) : M State unit :=
  modify (fun s => mkState (Some solc) (_extensions s) (next_ref s) (trace s)).

Definition is_set_hook (e : Event) : bool :=
  match e with EvSetHook _ _ => true | _ => false end.
Definition is_require (e : Event) : bool :=
  match e with EvRequire _ _ => true | _ => false end.
Definition is_solc_compile (e : Event) : bool :=
  match e with EvSolcCompile _ _ => true | _ => false end.

(** Number of bundle loads ([require] calls) a trace records. *)
Definition loads (t : list Event) : nat := length (filter is_require t).
(** Number of writes to the extension table a trace records. *)
Definition hook_writes (t : list Event) : nat := length (filter is_set_hook t).
(** Number of calls of the loaded compiler a trace records. *)
Definition invocations (t : list Event) : nat := length (filter is_solc_compile t).

Section WithHost.

(** [CompilerInput] and [CompilerOutput] are plain JSON documents the
    code never inspects; [JSON.parse] throws a [SyntaxError] on
    malformed text. *)
Context {CompilerInput CompilerOutput : Type}.
Variable JSON_stringify : CompilerInput -> string.
Variable JSON_parse : string -> Result CompilerOutput.

(** What a module evaluates to. *)
Context {Exports : Type}.

(** Node's [require]: its outcome for a path depends on the loaders
    registered at the time of the call.  The module being loaded is taken
    not to write to [Module._extensions] itself. *)
Variable node_require : Extensions -> string -> Result Exports.

(** The function exported by [solc/wrapper] (the [require] that fetches
    it is an ordinary dependency and is not traced); it may reject what it
    is given.  Each call builds a new object, never [undefined]. *)
Variable solcWrapper : Exports -> Result (string -> Result string).

(** The constructor's [private _pathToSolcJs]. *)
Variable _pathToSolcJs : string.

Definition require (path : string) : M State Exports :=
  (let* s := get in
   log (EvRequire path (_extensions s)) ;;
   lift (node_require (_extensions s) path))%js.

Definition _loadCompilerSources (compilerPath : string) : M State Exports :=
  (let* s := get in
   match _extensions s with
   | None => require compilerPath
   | Some table =>
       let previousHook := read table ".js" in
       set_hook ".js" RawLoader ;;
       let* loadedSolc := require compilerPath in
       set_hook ".js" previousHook ;;
       ret loadedSolc
   end)%js.

(** [solcWrapper(exports)], giving the new object its identity. *)
Definition wrap (exports : Exports) : M State Solc :=
  (let* compile_fn := lift (solcWrapper exports) in
   let* s := get in
   modify (fun s => mkState (_loadedSolc s) (_extensions s) (S (next_ref s)) (trace s)) ;;
   ret (mkSolc (next_ref s) compile_fn))%js.

Definition getSolc : M State Solc :=
  (let* s := get in
   match _loadedSolc s with
   | Some solc => ret solc
   | None =>
       let* exports := _loadCompilerSources _pathToSolcJs in
       let* solc := wrap exports in
       set_loadedSolc solc ;;
       ret solc
   end)%js.

Definition compile (input : CompilerInput) : M State CompilerOutput :=
  (let* solc := getSolc in
   let text := JSON_stringify input in
   log (EvSolcCompile (ref solc) text) ;;
   let* jsonOutput := lift (solc_compile solc text) in
   lift (JSON_parse jsonOutput))%js.

(** [n] calls of [getSolc] one after the other, each outcome kept. *)
Fixpoint getSolc_times (n : nat) (s : State) : State * list (Result Solc) :=
  match n with
  | O => (s, [])
  | S n' =>
      let '(s1, r) := getSolc s in
      let '(s2, rs) := getSolc_times n' s1 in
      (s2, r :: rs)
  end.

(** [compile] called on each input in turn, each outcome kept. *)
Fixpoint compile_each (inputs : list CompilerInput) (s : State)
  : State * list (Result CompilerOutput) :=
  match inputs with
  | [] => (s, [])
  | input :: rest =>
      let '(s1, r) := compile input s in
      let '(s2, rs) := compile_each rest s1 in
      (s2, r :: rs)
  end.

End WithHost.

(** [new Compiler(path)] in a process whose module system is [exts]. *)
Definition new (exts : Extensions) : State := mkState None exts 0%nat [].

(** Unfolds one layer of the load's plumbing. *)
Ltac unfold_load :=
  unfold _loadCompilerSources, require, set_hook, log, set_loadedSolc, wrap,
    bind, get, modify, lift, ret, throw; simpl.

End Compiler.

(** ** [class NativeCompiler]: the compiler run as a child process *)
Module NativeCompiler.

(** Paths are absolute POSIX paths, kept as their components. *)
Abbreviation Path := (list string).

Inductive Kind : Type := File | Dir.

#[global] Instance Kind_eq_dec : EqDecision Kind.
Proof. solve_decision. Defined.

(** [path.join(dir, name)] for a single plain component. *)
Definition path_join (dir : Path) (name : string) : Path := dir ++ [name].

(** The text of a path, as it is passed on a command line. *)
Fixpoint path_text (p : Path) : string :=
  match p with
  | [] => ""
  | seg :: rest => "/" +:+ seg +:+ path_text rest
  end.

Definition path_show (p : Path) : string :=
  match p with
  | [] => "/"
  | _ :: _ => path_text p
  end.

(** One call of [execFile(file, args, { maxBuffer }, callback)]. *)
Record ExecCall : Type := mkExecCall {
  file : string;
  args : list string;
  maxBuffer : N
}.

(** The child process [execFile] returns: what writing to and closing its
    input stream do, and the [(err, stdout)] its exit hands to the
    callback, given the text it read.  [err] is [null] on a clean exit. *)
Record ChildProcess : Type := mkChildProcess {
  stdin_write : string -> Result unit;
  stdin_end : Result unit;
  on_exit : string -> option Thrown * string
}.

(** The entries of the file system and the processes started so far. *)
Record State : Type := mkState {
  fs : gmap (list string) Kind;
  exec_calls : list ExecCall
}.

Definition system_error (code : string) : Thrown := JsError "Error" code.

(** [fs.mkdirSync(path, { recursive: true })]: walks down from the root,
    creating what is missing; a file in the way makes it throw. *)
Fixpoint mkdir_from (base todo : Path) (entries : gmap (list string) Kind)
  : gmap (list string) Kind * Result unit :=
  match todo with
  | [] => (entries, Return tt)
  | seg :: rest =>
      let here := base ++ [seg] in
      match entries !! here with
      | Some Dir => mkdir_from here rest entries
      | Some File =>
          (entries, Throw (system_error (match rest with
                                         | [] => "EEXIST"
                                         | _ :: _ => "ENOTDIR"
                                         end)))
      | None => mkdir_from here rest (<[here := Dir]> entries)
      end
  end.

Definition mkdirSync_recursive (p : Path) : M State unit :=
  fun s => let '(entries, r) := mkdir_from [] p (fs s) in
           (mkState entries (exec_calls s), r).

Definition MAX_BUFFER : N := 1024 * 1024 * 500.

Section WithHost.

Context {CompilerInput CompilerOutput : Type}.
Variable JSON_stringify : CompilerInput -> string.
Variable JSON_parse : string -> Result CompilerOutput.

(** [os.tmpdir()]. *)
Variable os_tmpdir : Path.

(** [child_process.execFile]: it throws, or returns the child. *)
Variable os_execFile : string -> list string -> N -> Result ChildProcess.

(** The constructor's [private _pathToSolc] and
    [private _solcVersion?]. *)
Variable _pathToSolc : string.
Variable _solcVersion : option string.

(** Lines 77-92: the argument list. *)
Definition compile_args : M State (list string) :=
  (let args := ["--standard-json"] in
   match _solcVersion with
   | None => ret args
   | Some version =>
       let* at_least_0_8_22 := lift (semver.gte version "0.8.22") in
       if at_least_0_8_22 : bool
       then ret (args ++ ["--no-import-callback"])
       else
         let* at_least_0_6_9 := lift (semver.gte version "0.6.9") in
         if at_least_0_6_9 : bool
         then
           let tmpFolder := path_join os_tmpdir "hardhat-solc" in
           mkdirSync_recursive tmpFolder ;;
           ret ((args ++ ["--base-path"]) ++ [path_show tmpFolder])
         else ret args
   end)%js.

Definition execFile (args : list string) : M State ChildProcess :=
  (modify (fun s => mkState (fs s)
                      (exec_calls s ++ [mkExecCall _pathToSolc args MAX_BUFFER])) ;;
   lift (os_execFile _pathToSolc args MAX_BUFFER))%js.

(** The body of the [try] block inside the promise executor. *)
Definition start (args : list string) (text : string) : M State ChildProcess :=
  (let* process := execFile args in
   lift (stdin_write process text) ;;
   lift (stdin_end process) ;;
   ret process)%js.

(** [await new Promise(...)]: an exception in the executor rejects the
    promise with the [HardhatError] built in the [catch]; otherwise the
    callback settles it when the child exits.  (A child that never exits
    leaves the promise pending; such runs have no outcome to speak of.) *)
Definition run (args : list string) (text : string) : M State string :=
  (let* process :=
     try_catch (start args text)
       (fun e => throw (HardhatError SOLC_CANT_RUN_NATIVE_COMPILER (Some e))) in
   match on_exit process text with
   | (Some err, _) => throw err
   | (None, stdout) => ret stdout
   end)%js.

Definition compile (input : CompilerInput) : M State CompilerOutput :=
  (let* args := compile_args in
   let* output := run args (JSON_stringify input) in
   lift (JSON_parse output))%js.

End WithHost.

End NativeCompiler.

(** ** Chain resolution ([Etherscan.getCurrentChainConfig]) *)
Module Etherscan.

Record ChainConfig : Type := mkChainConfig {
  network : string;
  chainId : N;
  apiURL : string;
  browserURL : string
}.

Definition HARDHAT_NETWORK_NAME : string := "hardhat".

Inductive ChainResolutionError : Type :=
  | HardhatNetworkNotSupportedError
  | ChainConfigNotFoundError (chainId : N).

Definition decimal (n : N) : string := NilEmpty.string_of_uint (N.to_uint n).

(** The messages the unit tests expect. *)
Definition message (e : ChainResolutionError) : string :=
  match e with
  | HardhatNetworkNotSupportedError =>
      "The selected network is hardhat. Please select a network supported by Etherscan."
  | ChainConfigNotFoundError id =>
      "Trying to verify a contract in a network with chain id " +:+ decimal id
      +:+ ", but the plugin doesn't recognize it as a supported chain."
  end.

Definition has_id (id : N) (c : ChainConfig) : bool := chainId c =? id.
Definition has_name (name : string) (c : ChainConfig) : bool :=
  String.eqb (network c) name.

(** The last entry of [chains] with the given chain id. *)
Definition last_match (id : N) (chains : list ChainConfig) : option ChainConfig :=
  List.find (has_id id) (rev chains).

Section WithBuiltins.

(** The built-in chain table. *)
Variable builtinChains : list ChainConfig.

(** The entry the policy prefers: the last matching custom chain, else
    the first matching built-in one. *)
Definition resolve (id : N) (customChains : list ChainConfig) : option ChainConfig :=
  List.find (has_id id) (rev customChains ++ builtinChains).

(** Modelled from the spec: [src/internal/etherscan.ts] is not among the
    sources (only its unit tests are).  Given the network's name, the
    chain id observed through the provider and the user's custom chains:
    prefer the last matching custom chain over the built-in ones; fail
    when the network is the local development network and no custom
    chain names it; fail when no entry matches the observed id.  When
    both failures apply the tests expect the first one. *)
Definition getCurrentChainConfig (networkName : string) (currentChainId : N)
    (customChains : list ChainConfig) : ChainResolutionError + ChainConfig :=
  if String.eqb networkName HARDHAT_NETWORK_NAME
     && negb (existsb (has_name HARDHAT_NETWORK_NAME) customChains)
  then inl HardhatNetworkNotSupportedError
  else match resolve currentChainId customChains with
       | Some config => inr config
       | None => inl (ChainConfigNotFoundError currentChainId)
       end.

(** The local development network, not named by any custom chain. *)
Definition reserved (networkName : string) (customChains : list ChainConfig) : Prop :=
  networkName = HARDHAT_NETWORK_NAME
  /\ Forall (fun c => network c <> HARDHAT_NETWORK_NAME) customChains.

(** No entry, custom or built-in, has the observed chain id. *)
Definition unmatched (id : N) (customChains : list ChainConfig) : Prop :=
  Forall (fun c => chainId c <> id) (customChains ++ builtinChains).

End WithBuiltins.

End Etherscan.

(** ** Concrete hosts, used to run the definitions *)
Module Sample.

(** Documents are kept as their text: serialising is the identity and
    parsing rejects the empty text only. *)
Definition stringify (input : string) : string := input.
Definition parse (text : string) : Result string :=
  match text with
  | EmptyString => Throw (JsError "SyntaxError" "Unexpected end of JSON input")
  | _ => Return text
  end.

Definition tmpdir : list string := ["tmp"].

(** A child that answers with a fixed document. *)
Definition healthy_child : NativeCompiler.ChildProcess :=
  NativeCompiler.mkChildProcess (fun _ => Return tt) (Return tt)
    (fun _ => (None, "{}")).

Definition command_failed : Thrown := JsError "Error" "Command failed: solc --standard-json".

(** A child that exits with a non-zero status. *)
Definition failing_child : NativeCompiler.ChildProcess :=
  NativeCompiler.mkChildProcess (fun _ => Return tt) (Return tt)
    (fun _ => (Some command_failed, "")).

(** Out of file descriptors (EMFILE): [execFile] still returns a child,
    but one without an input stream, so that [process.stdin!.write] throws
    a [TypeError]; the spawn error itself reaches the callback later. *)
Definition no_stdin : Thrown :=
  JsError "TypeError" "Cannot read properties of undefined (reading 'write')".
Definition starved_child : NativeCompiler.ChildProcess :=
  NativeCompiler.mkChildProcess (fun _ => Throw no_stdin) (Throw no_stdin)
    (fun _ => (Some (JsError "Error" "spawn solc EMFILE"), "")).

(** An executable that does not exist (ENOENT): [execFile] returns a
    child, writing to it does not throw, and the callback is handed the
    spawn error. *)
Definition executable_not_found : Thrown := JsError "Error" "spawn solc ENOENT".
Definition absent_child : NativeCompiler.ChildProcess :=
  NativeCompiler.mkChildProcess (fun _ => Return tt) (Return tt)
    (fun _ => (Some executable_not_found, "")).

Definition execFile_ok (file : string) (args : list string) (maxBuffer : N)
  : Result NativeCompiler.ChildProcess := Return healthy_child.
Definition execFile_exits_badly (file : string) (args : list string) (maxBuffer : N)
  : Result NativeCompiler.ChildProcess := Return failing_child.
Definition execFile_starved (file : string) (args : list string) (maxBuffer : N)
  : Result NativeCompiler.ChildProcess := Return starved_child.
Definition execFile_not_found (file : string) (args : list string) (maxBuffer : N)
  : Result NativeCompiler.ChildProcess := Return absent_child.

(** A file system holding only the directory [/tmp]. *)
Definition disk : NativeCompiler.State :=
  NativeCompiler.mkState {[ ["tmp"] := NativeCompiler.Dir ]} [].

(** A module system in which the compiler bundle is the only module
    that can be found; modules evaluate to their name. *)
Definition bundle_path : string := "/compilers/soljson.js".
Definition missing_path : string := "/missing/soljson.js".
Definition module_not_found : Thrown := JsError "Error" "Cannot find module".

Definition node_require (table : option (gmap string Compiler.Hook)) (path : string)
  : Result string :=
  if String.eqb path bundle_path then Return "soljson" else Throw module_not_found.

Definition solc_compile (text : string) : Result string := Return "{}".
Definition solcWrapper (exports : string) : Result (string -> Result string) :=
  Return solc_compile.

(** A host with an instrumenting loader for ".js" files. *)
Definition host_table : gmap string Compiler.Hook :=
  {[ ".js" := Compiler.HostHook 1; ".json" := Compiler.HostHook 2 ]}.

(** Chain tables: the custom chains of the resolution example and a
    built-in table with one entry. *)
Definition chain (name : string) (id : N) : Etherscan.ChainConfig :=
  Etherscan.mkChainConfig name id "<api-url>" "<browser-url>".

Definition customChains : list Etherscan.ChainConfig :=
  [chain "c1" 5000; chain "c2" 5000; chain "c3" 4999].

Definition builtinChains : list Etherscan.ChainConfig :=
  [Etherscan.mkChainConfig "goerli" 5 "https://api-goerli.etherscan.io/api"
     "https://goerli.etherscan.io"].

End Sample.

(** ** Version thresholds, arithmetically *)

(** [v] reaches the release [M.m.p]: its triple is higher, or it is that
    triple with no prerelease tag (a prerelease sorts before its release). *)
Definition reaches (v : semver.SemVer) (M m p : N) : Prop :=
  M < semver.major v
  \/ (semver.major v = M
      /\ (m < semver.minor v
          \/ (semver.minor v = m
              /\ (p < semver.patch v
                  \/ (semver.patch v = p /\ semver.prerelease v = []))))).

(** ** Why a load fails *)

(** A call of [getSolc] that has to load throws [e] when [require] of the
    bundle does, or when [solcWrapper] does on what was required. *)
Definition load_fails {Exports : Type}
    (node_require : option (gmap string Compiler.Hook) -> string -> Result Exports)
    (solcWrapper : Exports -> Result (string -> Result string))
    (path : string) (table : option (gmap string Compiler.Hook)) (e : Thrown) : Prop :=
  node_require table path = Throw e
  \/ exists exports, node_require table path = Return exports
                     /\ solcWrapper exports = Throw e.

(** ** More concrete hosts *)
Module Scenario.

(** A disk on which a file sits where the temporary folder should go. *)
Definition blocked_disk : NativeCompiler.State :=
  NativeCompiler.mkState
    {[ ["tmp"] := NativeCompiler.Dir; ["tmp"; "hardhat-solc"] := NativeCompiler.File ]} [].

(** The sample disk once the temporary folder exists. *)
Definition prepared_disk : NativeCompiler.State :=
  NativeCompiler.mkState
    (<[ ["tmp"; "hardhat-solc"] := NativeCompiler.Dir ]> (NativeCompiler.fs Sample.disk)) [].

(** An instance that has loaded its compiler, in a bundled host. *)
Definition loaded_handle : Compiler.Solc := Compiler.mkSolc 0 Sample.solc_compile.
Definition loaded : Compiler.State :=
  Compiler.mkState (Some loaded_handle) None 1%nat [Compiler.EvRequire Sample.bundle_path None].

End Scenario.

(** * Properties *)

(** ** The version comparison *)

Example semver_gte_examples :
  semver.gte "0.8.22" "0.8.22" = Return true /\
  semver.gte "0.8.22-rc.1" "0.8.22" = Return false /\
  semver.gte " v0.8.30+commit.abc " "0.8.22" = Return true /\
  semver.gte "0.7.0" "0.8.22" = Return false /\
  semver.gte "0.10.0" "0.8.22" = Return true /\
  semver.gte "0.7.0" "0.6.9" = Return true /\
  semver.gte "0.5.0" "0.6.9" = Return false /\
  semver.gte "0.08.1" "0.6.9" = Throw (semver.invalid_version "0.08.1") /\
  semver.gte "latest" "0.6.9" = Throw (semver.invalid_version "latest").
Proof. repeat split; reflexivity. Qed.

(** ** [NativeCompiler] *)

Module NativeFacts.
Import NativeCompiler.

(** [mkdirSync] never turns a directory into something else. *)
Lemma mkdir_from_keeps_dirs (todo base : list string) entries entries' r k :
  mkdir_from base todo entries = (entries', r) ->
  entries !! k = Some Dir -> entries' !! k = Some Dir.
Proof.
  revert base entries.
  induction todo as [|seg rest IH]; intros base entries Hrun Hk; simpl in Hrun.
  - by inversion Hrun; subst.
  - destruct (entries !! (base ++ [seg])) as [[|]|] eqn:Hhere.
    + by inversion Hrun; subst.
    + eauto.
    + eapply IH; [exact Hrun|].
      rewrite lookup_insert_ne; [done|]. intros <-. congruence.
Qed.

(** When [mkdirSync] returns, the directory exists. *)
Lemma mkdir_from_creates (todo base : list string) entries entries' :
  todo <> [] ->
  mkdir_from base todo entries = (entries', Return tt) ->
  entries' !! (base ++ todo) = Some Dir.
Proof.
  revert base entries.
  induction todo as [|seg rest IH]; intros base entries Hne Hrun; [done|].
  simpl in Hrun.
  assert (Hstep : forall e0, e0 !! (base ++ [seg]) = Some Dir ->
            mkdir_from (base ++ [seg]) rest e0 = (entries', Return tt) ->
            entries' !! (base ++ seg :: rest) = Some Dir).
  { intros e0 Hd Hr. destruct rest as [|seg' rest'].
    - simpl in Hr. by inversion Hr; subst.
    - replace (base ++ seg :: seg' :: rest') with ((base ++ [seg]) ++ seg' :: rest')
        by (by rewrite <- app_assoc).
      by eapply IH. }
  destruct (entries !! (base ++ [seg])) as [[|]|] eqn:Hhere.
  - discriminate.
  - by eapply Hstep.
  - eapply Hstep; [|exact Hrun]. by rewrite lookup_insert_eq.
Qed.

(** The text of a non-empty path starts with a slash, so it is none of
    the option names. *)
Lemma path_show_join_slash (dir : list string) (name : string) :
  exists rest, path_show (path_join dir name) = String "/" rest.
Proof.
  unfold path_join. destruct dir as [|seg dir']; simpl; eauto.
Qed.

End NativeFacts.

Section NativeCompilerProperties.
Import NativeCompiler NativeFacts.

Context {CompilerInput CompilerOutput : Type}.
Variable JSON_stringify : CompilerInput -> string.
Variable JSON_parse : string -> Result CompilerOutput.
Variable os_tmpdir : list string.
Variable os_execFile : string -> list string -> N -> Result ChildProcess.
Variable _pathToSolc : string.

Local Abbreviation compile_args := (NativeCompiler.compile_args os_tmpdir).
Local Abbreviation run := (NativeCompiler.run os_execFile _pathToSolc).
Local Abbreviation compile :=
  (NativeCompiler.compile JSON_stringify JSON_parse os_tmpdir os_execFile _pathToSolc).
Local Abbreviation tmpFolder := (path_join os_tmpdir "hardhat-solc").

(** Building the argument list starts no process. *)
Lemma compile_args_no_call version s s' r :
  compile_args version s = (s', r) -> exec_calls s' = exec_calls s.
Proof.
  unfold NativeCompiler.compile_args, bind, lift, ret, mkdirSync_recursive.
  destruct version as [version|]; [|by intros [= <- _]].
  destruct (semver.gte version "0.8.22") as [[|]|e]; try by intros [= <- _].
  destruct (semver.gte version "0.6.9") as [[|]|e]; try by intros [= <- _].
  destruct (mkdir_from [] tmpFolder (fs s)) as [entries [[]|e]]; by intros [= <- _].
Qed.

(** Running the child records exactly one [execFile] call, with the
    arguments it was given, and leaves the file system alone. *)
Lemma run_one_call arguments text s :
  exec_calls (run arguments text s).1
    = exec_calls s ++ [mkExecCall _pathToSolc arguments MAX_BUFFER]
  /\ fs (run arguments text s).1 = fs s.
Proof.
  unfold NativeCompiler.run, start, execFile, try_catch, bind, modify, lift, ret, throw.
  simpl.
  destruct (os_execFile _pathToSolc arguments MAX_BUFFER) as [child|e]; simpl; [|done].
  destruct (stdin_write child text) as [[]|e]; simpl; [|done].
  destruct (stdin_end child) as [[]|e]; simpl; [|done].
  by destruct (on_exit child text) as [[err|] out].
Qed.

(** [compile] hands the list it built to [execFile], once. *)
Lemma compile_passes_args version input s s1 arguments :
  compile_args version s = (s1, Return arguments) ->
  exec_calls (compile version input s).1
    = exec_calls s ++ [mkExecCall _pathToSolc arguments MAX_BUFFER]
  /\ fs (compile version input s).1 = fs s1.
Proof.
  intros Hargs. unfold NativeCompiler.compile, bind. rewrite Hargs.
  pose proof (run_one_call arguments (JSON_stringify input) s1) as [Hc Hf].
  rewrite (compile_args_no_call _ _ _ _ Hargs) in Hc.
  destruct (run arguments (JSON_stringify input) s1) as [s2 [out|e]]; simpl in *; [|done].
  unfold lift. by simpl.
Qed.

(** If the list cannot be built, nothing is started and the exception
    is the caller's. *)
Lemma compile_args_throw version input s s1 e :
  compile_args version s = (s1, Throw e) ->
  compile version input s = (s1, Throw e).
Proof. intros Hargs. unfold NativeCompiler.compile, bind. by rewrite Hargs. Qed.

Lemma compile_args_0_8_22 s :
  compile_args (Some "0.8.22") s
    = (s, Return ["--standard-json"; "--no-import-callback"]).
Proof. reflexivity. Qed.

Lemma compile_args_0_7_0 s entries :
  mkdir_from [] tmpFolder (fs s) = (entries, Return tt) ->
  compile_args (Some "0.7.0") s
    = (mkState entries (exec_calls s),
       Return ["--standard-json"; "--base-path"; path_show tmpFolder]).
Proof.
  intros Hmk.
  change (compile_args (Some "0.7.0") s)
    with (bind (mkdirSync_recursive tmpFolder)
            (fun _ => ret ["--standard-json"; "--base-path"; path_show tmpFolder]) s).
  unfold bind, mkdirSync_recursive. by rewrite Hmk.
Qed.

Lemma compile_args_0_5_0 s :
  compile_args (Some "0.5.0") s = (s, Return ["--standard-json"]).
Proof. reflexivity. Qed.

Lemma compile_args_no_version s :
  compile_args None s = (s, Return ["--standard-json"]).
Proof. reflexivity. Qed.

(** C1. The argument list [compile] passes to the executable is gated by
    the version: for "0.8.22" it is the mode flag followed by
    [--no-import-callback], with no [--base-path]; for "0.7.0", once
    [mkdirSync] has returned, it is the mode flag, [--base-path] and the
    text of the temporary folder, which is then a directory of the file
    system, with no [--no-import-callback]; for "0.5.0" and for no version
    it is exactly the mode flag. *)
Theorem native_args_version_gated (input : CompilerInput) (s : State) :
  let passed version := map args (exec_calls (compile version input s).1) in
  (passed (Some "0.8.22")
     = map args (exec_calls s) ++ [["--standard-json"; "--no-import-callback"]]
   /\ In "--no-import-callback" ["--standard-json"; "--no-import-callback"]
   /\ ~ In "--base-path" ["--standard-json"; "--no-import-callback"])
  /\ (forall entries,
        mkdir_from [] tmpFolder (fs s) = (entries, Return tt) ->
        let passed_list := ["--standard-json"; "--base-path"; path_show tmpFolder] in
        passed (Some "0.7.0") = map args (exec_calls s) ++ [passed_list]
        /\ fs (compile (Some "0.7.0") input s).1 !! tmpFolder = Some Dir
        /\ ~ In "--no-import-callback" passed_list)
  /\ passed (Some "0.5.0") = map args (exec_calls s) ++ [["--standard-json"]]
  /\ passed None = map args (exec_calls s) ++ [["--standard-json"]].
Proof.
  intros passed. unfold passed.
  split; [|split; [|split]].
  - destruct (compile_passes_args _ input _ _ _ (compile_args_0_8_22 s)) as [-> _].
    rewrite map_app. split; [done|]. split.
    + right; by left.
    + simpl. intros [H|[H|[]]]; discriminate H.
  - intros entries Hmk. cbv zeta.
    destruct (compile_passes_args _ input _ _ _ (compile_args_0_7_0 s entries Hmk))
      as [-> ->].
    rewrite map_app. split; [done|]. split.
    + simpl. change tmpFolder with ([] ++ tmpFolder).
      apply (mkdir_from_creates _ _ (fs s)); [|done].
      unfold path_join. by destruct os_tmpdir.
    + destruct (path_show_join_slash os_tmpdir "hardhat-solc") as [rest Hshow].
      rewrite Hshow.
      simpl. intros [H|[H|[H|[]]]]; discriminate H.
  - destruct (compile_passes_args _ input _ _ _ (compile_args_0_5_0 s)) as [-> _].
    by rewrite map_app.
  - destruct (compile_passes_args _ input _ _ _ (compile_args_no_version s)) as [-> _].
    by rewrite map_app.
Qed.


(** The three shapes the argument list can take. *)
Lemma compile_args_shapes version s s' arguments :
  compile_args version s = (s', Return arguments) ->
  arguments = ["--standard-json"]
  \/ arguments = ["--standard-json"; "--no-import-callback"]
  \/ arguments = ["--standard-json"; "--base-path"; path_show tmpFolder].
Proof.
  unfold NativeCompiler.compile_args, bind, lift, ret, mkdirSync_recursive.
  destruct version as [version|]; [|intros [= _ <-]; by left].
  destruct (semver.gte version "0.8.22") as [[|]|e]; [|  |done].
  { intros [= _ <-]. right; by left. }
  destruct (semver.gte version "0.6.9") as [[|]|e]; [| |done].
  - destruct (mkdir_from [] tmpFolder (fs s)) as [entries [[]|e]]; [|done].
    intros [= _ <-]. right; by right.
  - intros [= _ <-]. by left.
Qed.

(** C10. Whatever the version string (or without one), a list that
    [compile] builds starts with [--standard-json] and never holds both
    [--no-import-callback] and [--base-path]. *)
Theorem native_args_exclusive (version : option string) (s s' : State)
    (arguments : list string) :
  compile_args version s = (s', Return arguments) ->
  head arguments = Some "--standard-json"
  /\ ~ (In "--no-import-callback" arguments /\ In "--base-path" arguments).
Proof.
  intros Hargs.
  destruct (compile_args_shapes _ _ _ _ Hargs) as [-> | [-> | ->]].
  - split; [done|]. simpl. intros [[H|[]] _]. discriminate H.
  - split; [done|]. simpl. intros [_ [H|[H|[]]]]; discriminate H.
  - split; [done|].
    destruct (path_show_join_slash os_tmpdir "hardhat-solc") as [rest ->].
    simpl. intros [[H|[H|[H|[]]]] _]; discriminate H.
Qed.

(** The list is built whenever the version is absent or well formed and
    [mkdirSync] does not throw. *)
Lemma compile_args_returns version s :
  match version with
  | None => True
  | Some v => is_Return (semver.parse v) = true
              /\ is_Return (mkdir_from [] tmpFolder (fs s)).2 = true
  end ->
  is_Return (compile_args version s).2 = true.
Proof.
  unfold NativeCompiler.compile_args, bind, lift, ret, mkdirSync_recursive, semver.gte.
  destruct version as [v|]; [|done].
  intros [Hv Hmk]. destruct (semver.parse v) as [sv|e]; [|done].
  change (semver.parse "0.8.22") with (Return (semver.mkSemVer 0 8 22 [] [])).
  change (semver.parse "0.6.9") with (Return (semver.mkSemVer 0 6 9 [] [])).
  cbv iota beta.
  destruct (semver.compare sv _); try done;
    destruct (semver.compare sv _); try done;
    by destruct (mkdir_from [] tmpFolder (fs s)) as [entries [[]|e]].
Qed.

(** C6, as the code has it. An exception thrown inside the [try] that
    sets up the spawn (by [execFile] itself or by writing to and closing
    the child's input) makes [compile] fail with the [HardhatError] of
    descriptor [SOLC_CANT_RUN_NATIVE_COMPILER] whose parent is that
    exception.  (What Node reports through the callback, a missing
    executable included, is not such an exception.) *)
Theorem native_setup_exception_wrapped (version : option string)
    (input : CompilerInput) (s s1 s2 : State) (arguments : list string) (e : Thrown) :
  compile_args version s = (s1, Return arguments) ->
  NativeCompiler.start os_execFile _pathToSolc arguments (JSON_stringify input) s1
    = (s2, Throw e) ->
  compile version input s
    = (s2, Throw (HardhatError SOLC_CANT_RUN_NATIVE_COMPILER (Some e)))
  /\ parent_of (HardhatError SOLC_CANT_RUN_NATIVE_COMPILER (Some e)) = Some e.
Proof.
  intros Hargs Hstart. split; [|done].
  unfold NativeCompiler.compile, NativeCompiler.run, try_catch, bind, throw.
  by rewrite Hargs, Hstart.
Qed.

(** The three ways the set-up can throw. *)
Lemma start_throws arguments text s e :
  os_execFile _pathToSolc arguments MAX_BUFFER = Throw e
  \/ (exists child, os_execFile _pathToSolc arguments MAX_BUFFER = Return child
        /\ (stdin_write child text = Throw e
            \/ (stdin_write child text = Return tt /\ stdin_end child = Throw e))) ->
  exists s', NativeCompiler.start os_execFile _pathToSolc arguments text s = (s', Throw e).
Proof.
  unfold start, execFile, bind, modify, lift, ret. simpl.
  intros [-> | [child [-> [Hw | [Hw He]]]]]; simpl; rewrite ?Hw; simpl; rewrite ?He; eauto.
Qed.

(** C5, as the code has it. When the child was started and exits with an
    error, [compile] fails with that very error: the callback passes it
    to [reject] as it is. *)
Theorem native_exit_error_propagates (version : option string)
    (input : CompilerInput) (s s1 : State) (arguments : list string)
    (child : ChildProcess) (err : Thrown) (stdout : string) :
  compile_args version s = (s1, Return arguments) ->
  os_execFile _pathToSolc arguments MAX_BUFFER = Return child ->
  stdin_write child (JSON_stringify input) = Return tt ->
  stdin_end child = Return tt ->
  on_exit child (JSON_stringify input) = (Some err, stdout) ->
  (compile version input s).2 = Throw err.
Proof.
  intros Hargs Hexec Hw He Hexit.
  unfold NativeCompiler.compile, NativeCompiler.run, start, execFile, try_catch,
    bind, modify, lift, ret, throw.
  rewrite Hargs. simpl. rewrite Hexec. simpl. rewrite Hw. simpl. rewrite He. simpl.
  by rewrite Hexit.
Qed.

End NativeCompilerProperties.

(** C1 on a disk that holds [/tmp] only: the folder is created and passed. *)
Lemma native_args_version_gated_witness :
  NativeCompiler.mkdir_from [] (NativeCompiler.path_join Sample.tmpdir "hardhat-solc")
    (NativeCompiler.fs Sample.disk)
    = (<[ ["tmp"; "hardhat-solc"] := NativeCompiler.Dir ]> (NativeCompiler.fs Sample.disk),
       Return tt)
  /\ map NativeCompiler.args
       (NativeCompiler.exec_calls
          (NativeCompiler.compile Sample.stringify Sample.parse Sample.tmpdir
             Sample.execFile_ok "solc" (Some "0.7.0") "{}" Sample.disk).1)
     = [["--standard-json"; "--base-path"; "/tmp/hardhat-solc"]].
Proof.
  split; [reflexivity|].
  pose proof (native_args_version_gated Sample.stringify Sample.parse Sample.tmpdir
                Sample.execFile_ok "solc" "{}" Sample.disk) as (_ & H & _).
  destruct (H _ eq_refl) as (Hpassed & _). exact Hpassed.
Defined.

(** C10 at version "0.7.0" on the sample disk. *)
Lemma native_args_exclusive_witness :
  head ["--standard-json"; "--base-path"; "/tmp/hardhat-solc"] = Some "--standard-json"
  /\ ~ (In "--no-import-callback" ["--standard-json"; "--base-path"; "/tmp/hardhat-solc"]
        /\ In "--base-path" ["--standard-json"; "--base-path"; "/tmp/hardhat-solc"]).
Proof.
  apply (native_args_exclusive Sample.tmpdir (Some "0.7.0") Sample.disk
           (NativeCompiler.mkState
              (<[ ["tmp"; "hardhat-solc"] := NativeCompiler.Dir ]>
                 (NativeCompiler.fs Sample.disk)) [])).
  reflexivity.
Defined.

(** C6 as the code has it, when the child has no input stream: the
    [TypeError] of the write is the parent. *)
Lemma native_setup_exception_wrapped_witness :
  NativeCompiler.compile Sample.stringify Sample.parse Sample.tmpdir
    Sample.execFile_starved "solc" None "{}" Sample.disk
  = (NativeCompiler.mkState (NativeCompiler.fs Sample.disk)
       [NativeCompiler.mkExecCall "solc" ["--standard-json"] NativeCompiler.MAX_BUFFER],
     Throw (HardhatError SOLC_CANT_RUN_NATIVE_COMPILER (Some Sample.no_stdin)))
  /\ parent_of (HardhatError SOLC_CANT_RUN_NATIVE_COMPILER (Some Sample.no_stdin))
     = Some Sample.no_stdin.
Proof.
  apply (native_setup_exception_wrapped Sample.stringify Sample.parse Sample.tmpdir
           Sample.execFile_starved "solc" None "{}" Sample.disk Sample.disk _
           ["--standard-json"] Sample.no_stdin); reflexivity.
Defined.

(** C6 as stated fails: an executable that cannot be found does not make
    [execFile] throw; the spawn error comes through the callback, and
    [compile] rejects with it as it is, which is no [HardhatError] and has
    no parent. *)
Lemma native_setup_exception_wrapped_counterexample :
  let outcome :=
    (NativeCompiler.compile Sample.stringify Sample.parse Sample.tmpdir
       Sample.execFile_not_found "solc" None "{}" Sample.disk).2 in
  outcome = Throw Sample.executable_not_found
  /\ is_HardhatError Sample.executable_not_found = false
  /\ parent_of Sample.executable_not_found = None
  /\ ~ (exists descriptor parent, outcome = Throw (HardhatError descriptor parent)).
Proof.
  repeat split; try reflexivity. intros (descriptor & parent & H). discriminate H.
Qed.

(** C5 as stated fails: with a child that exits with an error, [compile]
    rejects with the bare process error, which is no [HardhatError] and
    has no parent. *)
Lemma native_exit_error_wrapped_counterexample :
  let outcome :=
    (NativeCompiler.compile Sample.stringify Sample.parse Sample.tmpdir
       Sample.execFile_exits_badly "solc" None "{}" Sample.disk).2 in
  outcome = Throw Sample.command_failed
  /\ is_HardhatError Sample.command_failed = false
  /\ parent_of Sample.command_failed = None
  /\ ~ (exists descriptor,
          outcome = Throw (HardhatError descriptor (Some Sample.command_failed))).
Proof.
  repeat split; try reflexivity. intros [descriptor H]. discriminate H.
Qed.

(** C5 as the code has it, on the same child. *)
Lemma native_exit_error_propagates_witness :
  (NativeCompiler.compile Sample.stringify Sample.parse Sample.tmpdir
     Sample.execFile_exits_badly "solc" None "{}" Sample.disk).2
  = Throw Sample.command_failed.
Proof.
  apply (native_exit_error_propagates Sample.stringify Sample.parse Sample.tmpdir
           Sample.execFile_exits_badly "solc" None "{}" Sample.disk Sample.disk
           ["--standard-json"] Sample.failing_child Sample.command_failed "");
    reflexivity.
Defined.

(** ** [Compiler] *)

Section CompilerProperties.
Import Compiler.

Context {CompilerInput CompilerOutput Exports : Type}.
Variable JSON_stringify : CompilerInput -> string.
Variable JSON_parse : string -> Result CompilerOutput.
Variable node_require : option (gmap string Hook) -> string -> Result Exports.
Variable solcWrapper : Exports -> Result (string -> Result string).
Variable _pathToSolcJs : string.

Local Abbreviation loadCompilerSources := (Compiler._loadCompilerSources node_require).
Local Abbreviation getSolc := (Compiler.getSolc node_require solcWrapper _pathToSolcJs).
Local Abbreviation getSolc_times :=
  (Compiler.getSolc_times node_require solcWrapper _pathToSolcJs).
Local Abbreviation compile :=
  (Compiler.compile JSON_stringify JSON_parse node_require solcWrapper _pathToSolcJs).
Local Abbreviation compile_each :=
  (Compiler.compile_each JSON_stringify JSON_parse node_require solcWrapper _pathToSolcJs).

Lemma loads_snoc t e : loads (t ++ [e]) = (loads t + (if is_require e then 1 else 0))%nat.
Proof.
  unfold loads. rewrite filter_app, length_app. f_equal.
  by destruct e.
Qed.

Lemma hook_writes_snoc t e :
  hook_writes (t ++ [e]) = (hook_writes t + (if is_set_hook e then 1 else 0))%nat.
Proof.
  unfold hook_writes. rewrite filter_app, length_app. f_equal.
  by destruct e.
Qed.

Lemma invocations_snoc t e :
  invocations (t ++ [e]) = (invocations t + (if is_solc_compile e then 1 else 0))%nat.
Proof.
  unfold invocations. rewrite filter_app, length_app. f_equal.
  by destruct e.
Qed.

(** The load when the host has no extension table: a plain [require]. *)
Lemma load_bundled path s :
  _extensions s = None ->
  loadCompilerSources path s
    = (mkState (_loadedSolc s) None (next_ref s) (trace s ++ [EvRequire path None]),
       node_require None path).
Proof. intros Hx. unfold_load. rewrite Hx. unfold_load. by rewrite Hx. Qed.

(** The load when [require] succeeds under the temporary loader. *)
Lemma load_hooked_success path s table exports :
  _extensions s = Some table ->
  node_require (Some (<[".js" := RawLoader]> table)) path = Return exports ->
  loadCompilerSources path s
    = (mkState (_loadedSolc s)
         (Some (<[".js" := read table ".js"]> (<[".js" := RawLoader]> table)))
         (next_ref s)
         (((trace s ++ [EvSetHook ".js" RawLoader])
             ++ [EvRequire path (Some (<[".js" := RawLoader]> table))])
            ++ [EvSetHook ".js" (read table ".js")]),
       Return exports).
Proof.
  intros Hx Hreq. unfold_load. rewrite Hx. unfold_load. rewrite ?Hx. unfold_load.
  rewrite Hreq. by unfold_load.
Qed.

(** The load when [require] throws under the temporary loader: the
    statement that puts the previous hook back is never reached. *)
Lemma load_hooked_failure path s table e :
  _extensions s = Some table ->
  node_require (Some (<[".js" := RawLoader]> table)) path = Throw e ->
  loadCompilerSources path s
    = (mkState (_loadedSolc s) (Some (<[".js" := RawLoader]> table)) (next_ref s)
         ((trace s ++ [EvSetHook ".js" RawLoader])
            ++ [EvRequire path (Some (<[".js" := RawLoader]> table))]),
       Throw e).
Proof.
  intros Hx Hreq. unfold_load. rewrite Hx. unfold_load. rewrite ?Hx. unfold_load.
  rewrite Hreq. by unfold_load.
Qed.

(** Every call of [_loadCompilerSources] performs exactly one [require],
    and touches neither the cached handle nor the handle counter. *)
Lemma load_counts path s :
  let s' := (loadCompilerSources path s).1 in
  loads (trace s') = S (loads (trace s))
  /\ invocations (trace s') = invocations (trace s)
  /\ _loadedSolc s' = _loadedSolc s
  /\ next_ref s' = next_ref s.
Proof.
  destruct (_extensions s) as [table|] eqn:Hx.
  - destruct (node_require (Some (<[".js" := RawLoader]> table)) path) as [x|e] eqn:Hreq.
    + rewrite (load_hooked_success _ _ _ _ Hx Hreq). simpl.
      rewrite !loads_snoc, !invocations_snoc. simpl. repeat split; lia.
    + rewrite (load_hooked_failure _ _ _ _ Hx Hreq). simpl.
      rewrite !loads_snoc, !invocations_snoc. simpl. repeat split; lia.
  - rewrite (load_bundled _ _ Hx). simpl.
    rewrite !loads_snoc, !invocations_snoc. simpl. repeat split; lia.
Qed.

(** After a successful guarded load the extension table reads as before
    at every key. *)
Lemma load_success_restores path s table exports :
  _extensions s = Some table ->
  node_require (Some (<[".js" := RawLoader]> table)) path = Return exports ->
  exists table', _extensions (loadCompilerSources path s).1 = Some table'
                 /\ forall key, read table' key = read table key.
Proof.
  intros Hx Hreq. rewrite (load_hooked_success _ _ _ _ Hx Hreq). simpl.
  eexists; split; [done|]. intros key. unfold read.
  destruct (decide (key = ".js")) as [->|Hne].
  - by rewrite lookup_insert_eq.
  - by rewrite !lookup_insert_ne.
Qed.

(** C7. When [Module._extensions] is undefined the guarded load is the
    ordinary [require] of the path, and it writes no hook: the table
    stays undefined and the trace gains the [require] only. *)
Theorem load_without_extensions_is_plain_require (path : string) (s : State) :
  _extensions s = None ->
  let '(s', outcome) := loadCompilerSources path s in
  outcome = node_require None path
  /\ _extensions s' = None
  /\ trace s' = trace s ++ [EvRequire path None]
  /\ hook_writes (trace s') = hook_writes (trace s).
Proof.
  intros Hx. rewrite (load_bundled _ _ Hx). simpl.
  rewrite hook_writes_snoc. simpl. repeat split; lia.
Qed.

(** C2, where the code departs from it. When the load throws, the
    temporary loader is still installed for ".js" afterwards: the
    previous hook is not put back, and later loads go through the
    temporary loader. *)
Theorem guarded_load_failure_keeps_temporary_hook (path : string) (s : State)
    (table : gmap string Hook) (e : Thrown) :
  _extensions s = Some table ->
  node_require (Some (<[".js" := RawLoader]> table)) path = Throw e ->
  let '(s', outcome) := loadCompilerSources path s in
  outcome = Throw e
  /\ _extensions s' = Some (<[".js" := RawLoader]> table)
  /\ (forall table', _extensions s' = Some table' -> read table' ".js" = RawLoader)
  /\ hook_writes (trace s') = S (hook_writes (trace s)).
Proof.
  intros Hx Hreq. rewrite (load_hooked_failure _ _ _ _ Hx Hreq). simpl.
  rewrite !hook_writes_snoc. simpl. repeat split; try lia.
  intros table' [= <-]. unfold read. by rewrite lookup_insert_eq.
Qed.


(** A cached handle is returned as it is; nothing else happens. *)
Lemma getSolc_cached s h :
  _loadedSolc s = Some h -> getSolc s = (s, Return h).
Proof. intros Hc. unfold Compiler.getSolc. unfold_load. by rewrite Hc. Qed.

(** Without a cached handle: load, wrap, store. *)
Lemma getSolc_uncached s :
  _loadedSolc s = None ->
  getSolc s
    = match loadCompilerSources _pathToSolcJs s with
      | (s1, Throw e) => (s1, Throw e)
      | (s1, Return exports) =>
          match solcWrapper exports with
          | Throw e => (s1, Throw e)
          | Return compile_fn =>
              let solc := mkSolc (next_ref s1) compile_fn in
              (mkState (Some solc) (_extensions s1) (S (next_ref s1)) (trace s1),
               Return solc)
          end
      end.
Proof.
  intros Hc. unfold Compiler.getSolc, bind at 1, get. rewrite Hc.
  unfold bind at 1.
  destruct (loadCompilerSources _pathToSolcJs s) as [s1 [exports|e]]; [|done].
  unfold set_loadedSolc, wrap, bind, get, modify, lift, ret.
  by destruct (solcWrapper exports).
Qed.

(** A first call that returns has loaded the bundle once and cached what
    it returns. *)
Lemma getSolc_first s s1 h :
  _loadedSolc s = None ->
  getSolc s = (s1, Return h) ->
  _loadedSolc s1 = Some h /\ loads (trace s1) = S (loads (trace s)).
Proof.
  intros Hc. rewrite (getSolc_uncached _ Hc).
  pose proof (load_counts _pathToSolcJs s) as (Hl & _).
  destruct (loadCompilerSources _pathToSolcJs s) as [s0 [exports|e]]; [|done].
  destruct (solcWrapper exports) as [compile_fn|e]; [|done].
  simpl in *. by intros [= <- <-].
Qed.

Lemma getSolc_times_cached n s h :
  _loadedSolc s = Some h ->
  getSolc_times n s = (s, repeat (Return h) n).
Proof.
  intros Hc. induction n as [|n IH]; [done|].
  simpl. by rewrite (getSolc_cached _ _ Hc), IH.
Qed.

(** [getSolc] never calls the compiler. *)
Lemma getSolc_no_invocation s :
  invocations (trace (getSolc s).1) = invocations (trace s).
Proof.
  destruct (_loadedSolc s) as [h|] eqn:Hc.
  - by rewrite (getSolc_cached _ _ Hc).
  - rewrite (getSolc_uncached _ Hc).
    pose proof (load_counts _pathToSolcJs s) as (_ & Hi & _).
    destruct (loadCompilerSources _pathToSolcJs s) as [s0 [exports|e]]; [|done].
    by destruct (solcWrapper exports).
Qed.

(** [compile] in terms of [getSolc]. *)
Lemma compile_unfold input s :
  compile input s
    = match getSolc s with
      | (s1, Throw e) => (s1, Throw e)
      | (s1, Return solc) =>
          (mkState (_loadedSolc s1) (_extensions s1) (next_ref s1)
             (trace s1 ++ [EvSolcCompile (ref solc) (JSON_stringify input)]),
           match solc_compile solc (JSON_stringify input) with
           | Throw e => Throw e
           | Return jsonOutput => JSON_parse jsonOutput
           end)
      end.
Proof.
  unfold Compiler.compile, bind at 1.
  destruct (getSolc s) as [s1 [solc|e]]; [|done].
  unfold log, bind, modify, lift. simpl.
  by destruct (solc_compile solc (JSON_stringify input)).
Qed.

(** With a cached handle, [compile] loads nothing and keeps the handle. *)
Lemma compile_cached input s h :
  _loadedSolc s = Some h ->
  _loadedSolc (compile input s).1 = Some h
  /\ loads (trace (compile input s).1) = loads (trace s).
Proof.
  intros Hc. rewrite compile_unfold, (getSolc_cached _ _ Hc). simpl.
  rewrite loads_snoc. simpl. split; [done|lia].
Qed.

Lemma compile_each_cached inputs s h :
  _loadedSolc s = Some h ->
  loads (trace (compile_each inputs s).1) = loads (trace s).
Proof.
  revert s. induction inputs as [|input rest IH]; intros s Hc; [done|].
  simpl. destruct (compile_cached input s h Hc) as [Hc' Hl].
  destruct (compile input s) as [s1 r]. simpl in *.
  specialize (IH s1 Hc'). destruct (compile_each rest s1) as [s2 rs].
  simpl in *. congruence.
Qed.

(** A call that throws caches nothing. *)
Lemma getSolc_throw_uncached s s1 e :
  _loadedSolc s = None ->
  getSolc s = (s1, Throw e) ->
  _loadedSolc s1 = None.
Proof.
  intros Hc. rewrite (getSolc_uncached _ Hc).
  pose proof (load_counts _pathToSolcJs s) as (_ & _ & Hkeep & _).
  destruct (loadCompilerSources _pathToSolcJs s) as [s0 [exports|e0]]; simpl in *.
  - destruct (solcWrapper exports) as [compile_fn|e1]; [done|].
    intros [= <- _]. congruence.
  - intros [= <- _]. congruence.
Qed.

(** Whatever happens to the calls that throw, all the handles a run of
    calls returns are one and the same. *)
Lemma getSolc_handles_agree n s h1 h2 :
  In (Return h1) (getSolc_times n s).2 ->
  In (Return h2) (getSolc_times n s).2 ->
  h1 = h2.
Proof.
  revert s. induction n as [|n IH]; intros s; [done|].
  destruct (_loadedSolc s) as [h|] eqn:Hc.
  { rewrite (getSolc_times_cached _ _ _ Hc). cbn [snd].
    intros H1 H2. apply repeat_spec in H1, H2. congruence. }
  simpl. destruct (getSolc s) as [s1 [h|e]] eqn:Hfirst.
  - destruct (getSolc_first _ _ _ Hc Hfirst) as [Hc1 _].
    rewrite (getSolc_times_cached n _ _ Hc1). simpl.
    intros [H1|H1] [H2|H2]; try apply repeat_spec in H1; try apply repeat_spec in H2;
      congruence.
  - specialize (IH s1). destruct (getSolc_times n s1) as [s2 rs]. simpl in *.
    intros [H1|H1] [H2|H2]; try discriminate. by apply IH.
Qed.

(** C3, as the code has it. On an instance whose first [getSolc] returns
    a handle, [n >= 1] calls in a row all return that handle and the
    bundle is loaded exactly once; and however many times [compile] is
    called in a row, at most one load takes place.  (Without a first call
    that returns, nothing is cached and every call loads again.) *)
Theorem getSolc_loads_once (n : nat) (s s1 : State) (h : Solc) :
  _loadedSolc s = None ->
  getSolc s = (s1, Return h) ->
  (1 <= n)%nat ->
  (getSolc_times n s).2 = repeat (Return h) n
  /\ loads (trace (getSolc_times n s).1) = S (loads (trace s))
  /\ forall inputs : list CompilerInput,
       (loads (trace (compile_each inputs s).1) <= S (loads (trace s)))%nat.
Proof.
  intros Hc Hfirst Hn.
  destruct (getSolc_first _ _ _ Hc Hfirst) as [Hc1 Hl1].
  split; [|split].
  - destruct n as [|n]; [lia|]. simpl. rewrite Hfirst.
    by rewrite (getSolc_times_cached n _ _ Hc1).
  - destruct n as [|n]; [lia|]. simpl. rewrite Hfirst.
    by rewrite (getSolc_times_cached n _ _ Hc1).
  - intros [|input rest]; [simpl; lia|].
    simpl. rewrite compile_unfold, Hfirst.
    match goal with
    | |- context [compile_each rest ?st] =>
        pose proof (compile_each_cached rest st h Hc1) as Hrest;
        destruct (compile_each rest st) as [s2 rs]
    end.
    simpl in *. rewrite Hrest, loads_snoc. simpl. lia.
Qed.

(** C4. [compile] returns the parse of the text the loaded compiler gave
    for the serialised input, after calling the compiler exactly once; an
    exception from the compiler or from the parse, like one from the load,
    is the outcome of [compile] itself. *)
Theorem compile_is_parse_of_compiler_output (input : CompilerInput) (s : State) :
  match getSolc s with
  | (s1, Throw e) =>
      compile input s = (s1, Throw e)
      /\ invocations (trace (compile input s).1) = invocations (trace s)
  | (s1, Return solc) =>
      (compile input s).2
        = match solc_compile solc (JSON_stringify input) with
          | Throw e => Throw e
          | Return jsonOutput => JSON_parse jsonOutput
          end
      /\ invocations (trace (compile input s).1) = S (invocations (trace s))
      /\ last (trace (compile input s).1)
           = Some (EvSolcCompile (ref solc) (JSON_stringify input))
  end.
Proof.
  rewrite compile_unfold.
  pose proof (getSolc_no_invocation s) as Hi.
  destruct (getSolc s) as [s1 [solc|e]]; simpl in *.
  - rewrite invocations_snoc, last_snoc, Hi. simpl. repeat split; lia.
  - by rewrite Hi.
Qed.

End CompilerProperties.

(** C7 on a bundled host: the load is the plain [require]. *)
Lemma load_without_extensions_is_plain_require_witness :
  let '(s', outcome) :=
    Compiler._loadCompilerSources Sample.node_require Sample.bundle_path
      (Compiler.new None) in
  outcome = Sample.node_require None Sample.bundle_path
  /\ Compiler._extensions s' = None
  /\ Compiler.trace s'
     = Compiler.trace (Compiler.new None) ++ [Compiler.EvRequire Sample.bundle_path None]
  /\ Compiler.hook_writes (Compiler.trace s')
     = Compiler.hook_writes (Compiler.trace (Compiler.new None)).
Proof.
  exact (load_without_extensions_is_plain_require Sample.node_require
           Sample.bundle_path (Compiler.new None) eq_refl).
Defined.

(** C2 on a host with an instrumenting ".js" loader and a bundle that
    cannot be found. *)
Lemma guarded_load_failure_keeps_temporary_hook_witness :
  let '(s', outcome) :=
    Compiler._loadCompilerSources Sample.node_require Sample.missing_path
      (Compiler.new (Some Sample.host_table)) in
  outcome = Throw Sample.module_not_found
  /\ Compiler._extensions s'
     = Some (<[".js" := Compiler.RawLoader]> Sample.host_table)
  /\ (forall table', Compiler._extensions s' = Some table' ->
        Compiler.read table' ".js" = Compiler.RawLoader)
  /\ Compiler.hook_writes (Compiler.trace s')
     = S (Compiler.hook_writes (Compiler.trace (Compiler.new (Some Sample.host_table)))).
Proof.
  exact (guarded_load_failure_keeps_temporary_hook Sample.node_require
           Sample.missing_path (Compiler.new (Some Sample.host_table))
           Sample.host_table Sample.module_not_found eq_refl eq_refl).
Defined.

(** The same run, evaluated: the ".js" entry was the host's loader before
    the failed load and is the temporary loader after it. *)
Example failed_load_changes_js_hook :
  Compiler.read Sample.host_table ".js" = Compiler.HostHook 1
  /\ (default Sample.host_table
        (Compiler._extensions
           (Compiler._loadCompilerSources Sample.node_require Sample.missing_path
              (Compiler.new (Some Sample.host_table))).1)) !! ".js"
     = Some Compiler.RawLoader.
Proof. split; reflexivity. Qed.

(** C3 with three calls on a host where the bundle loads. *)
Lemma getSolc_loads_once_witness :
  (Compiler.getSolc_times Sample.node_require Sample.solcWrapper Sample.bundle_path 3
     (Compiler.new (Some Sample.host_table))).2
  = repeat (Return (Compiler.mkSolc 0 Sample.solc_compile)) 3
  /\ Compiler.loads
       (Compiler.trace
          (Compiler.getSolc_times Sample.node_require Sample.solcWrapper
             Sample.bundle_path 3 (Compiler.new (Some Sample.host_table))).1)
     = 1%nat.
Proof.
  destruct (getSolc_loads_once (CompilerInput := string) Sample.stringify Sample.parse
              Sample.node_require Sample.solcWrapper Sample.bundle_path 3
              (Compiler.new (Some Sample.host_table))
              (Compiler.getSolc Sample.node_require Sample.solcWrapper Sample.bundle_path
                 (Compiler.new (Some Sample.host_table))).1
              (Compiler.mkSolc 0 Sample.solc_compile)
              eq_refl eq_refl ltac:(lia)) as (Hr & Hl & _).
  split; [exact Hr | exact Hl].
Defined.

(** C3 as stated fails: with a bundle that cannot be found, two calls of
    [getSolc] return no handle at all and load twice, and two calls of
    [compile] load twice as well. *)
Lemma getSolc_loads_once_counterexample :
  let fresh := Compiler.new (Some Sample.host_table) in
  let calls :=
    Compiler.getSolc_times Sample.node_require Sample.solcWrapper Sample.missing_path 2
      fresh in
  let compiles :=
    Compiler.compile_each Sample.stringify Sample.parse Sample.node_require
      Sample.solcWrapper Sample.missing_path ["{}"; "{}"] fresh in
  calls.2 = [Throw Sample.module_not_found; Throw Sample.module_not_found]
  /\ Compiler.loads (Compiler.trace calls.1) = 2%nat
  /\ Compiler.loads (Compiler.trace compiles.1) = 2%nat
  /\ ~ (exists h, calls.2 = repeat (Return h) 2
                  /\ Compiler.loads (Compiler.trace calls.1) = 1%nat)
  /\ ~ (Compiler.loads (Compiler.trace compiles.1) <= 1)%nat.
Proof.
  repeat split; try reflexivity.
  - intros (h & Hcalls & _). discriminate Hcalls.
  - vm_compute. lia.
Qed.

(** ** Chain resolution *)

Module ChainFacts.

Lemma find_app {A} (f : A -> bool) (l1 l2 : list A) :
  List.find f (l1 ++ l2)
    = match List.find f l1 with Some x => Some x | None => List.find f l2 end.
Proof.
  induction l1 as [|x l1 IH]; [done|]. simpl. by destruct (f x).
Qed.

Lemma find_none_iff {A} (f : A -> bool) (l : list A) :
  List.find f l = None <-> Forall (fun x => f x = false) l.
Proof.
  induction l as [|x l IH]; simpl.
  - split; [constructor|done].
  - destruct (f x) eqn:Hx.
    + split; [done|]. intros H. inversion H; congruence.
    + rewrite IH. split; [by constructor|]. intros H. by inversion H.
Qed.

Lemma has_id_false id c :
  Etherscan.has_id id c = false <-> Etherscan.chainId c <> id.
Proof. unfold Etherscan.has_id. apply N.eqb_neq. Qed.

Lemma no_match_iff id chains :
  List.find (Etherscan.has_id id) chains = None
  <-> Forall (fun c => Etherscan.chainId c <> id) chains.
Proof.
  rewrite find_none_iff. apply Forall_iff. intros c. apply has_id_false.
Qed.

(** [last_match] picks the matching entry that no matching entry
    follows. *)
Lemma last_match_last id before c after :
  Etherscan.chainId c = id ->
  Forall (fun x => Etherscan.chainId x <> id) after ->
  Etherscan.last_match id (before ++ c :: after) = Some c.
Proof.
  intros Hc Hafter. unfold Etherscan.last_match.
  rewrite rev_app_distr. simpl. rewrite <- app_assoc, find_app.
  assert (List.find (Etherscan.has_id id) (rev after) = None) as ->.
  { apply no_match_iff. by apply Forall_rev. }
  simpl. unfold Etherscan.has_id at 1. by rewrite Hc, N.eqb_refl.
Qed.

Lemma last_match_none id chains :
  Etherscan.last_match id chains = None
  <-> Forall (fun c => Etherscan.chainId c <> id) chains.
Proof.
  unfold Etherscan.last_match. rewrite no_match_iff.
  split; intros H.
  - rewrite <- (rev_involutive chains). by apply Forall_rev.
  - by apply Forall_rev.
Qed.

Lemma names_hardhat_false customChains :
  existsb (Etherscan.has_name Etherscan.HARDHAT_NETWORK_NAME) customChains = false
  <-> Forall (fun c => Etherscan.network c <> Etherscan.HARDHAT_NETWORK_NAME) customChains.
Proof.
  induction customChains as [|c rest IH]; simpl.
  - split; [constructor|done].
  - rewrite orb_false_iff, IH. unfold Etherscan.has_name.
    rewrite String.eqb_neq. split.
    + intros [? ?]. by constructor.
    + intros H. by inversion H.
Qed.

End ChainFacts.

Section ChainResolution.
Import Etherscan ChainFacts.

Variable builtinChains : list ChainConfig.

Local Abbreviation getCurrentChainConfig := (Etherscan.getCurrentChainConfig builtinChains).
Local Abbreviation resolve := (Etherscan.resolve builtinChains).

Local Abbreviation unmatched := (Etherscan.unmatched builtinChains).

Lemma reserved_test networkName customChains :
  String.eqb networkName HARDHAT_NETWORK_NAME
    && negb (existsb (has_name HARDHAT_NETWORK_NAME) customChains) = true
  <-> reserved networkName customChains.
Proof.
  unfold reserved.
  rewrite andb_true_iff, negb_true_iff, String.eqb_eq, names_hardhat_false. tauto.
Qed.

Lemma resolve_custom_first id customChains :
  resolve id customChains
    = match last_match id customChains with
      | Some c => Some c
      | None => List.find (has_id id) builtinChains
      end.
Proof. unfold Etherscan.resolve, last_match. apply find_app. Qed.

Lemma resolve_none id customChains :
  resolve id customChains = None <-> unmatched id customChains.
Proof.
  unfold unmatched. rewrite Forall_app, resolve_custom_first, <- last_match_none,
    <- no_match_iff.
  destruct (last_match id customChains); [|tauto].
  split; [done|]. by intros [? _].
Qed.


(** The policy away from the failure cases: last matching custom chain
    first, then the built-in table. *)
Lemma resolution_order (networkName : string) (id : N)
    (customChains : list ChainConfig) :
  ~ reserved networkName customChains ->
  (forall before c after,
      customChains = before ++ c :: after ->
      chainId c = id ->
      Forall (fun x => chainId x <> id) after ->
      getCurrentChainConfig networkName id customChains = inr c)
  /\ (forall b,
        Forall (fun x => chainId x <> id) customChains ->
        List.find (has_id id) builtinChains = Some b ->
        getCurrentChainConfig networkName id customChains = inr b).
Proof.
  intros Hres. unfold Etherscan.getCurrentChainConfig.
  destruct (String.eqb networkName HARDHAT_NETWORK_NAME
            && negb (existsb (has_name HARDHAT_NETWORK_NAME) customChains)) eqn:Htest.
  { exfalso. apply Hres. by apply reserved_test. }
  rewrite resolve_custom_first. split.
  - intros before c after -> Hc Hafter. by rewrite last_match_last.
  - intros b Hnone Hb. apply last_match_none in Hnone. by rewrite Hnone, Hb.
Qed.

(** C8. On the example table with observed id 5000 the entry named "c2"
    is returned (for a network other than the local development one).  In
    general, unless the network is the local development network that no
    custom chain names, the custom chain with the observed id that no
    other such custom chain follows is returned, whatever the built-in
    table holds; and when no custom chain has the observed id, the first
    built-in entry with that id is returned. *)
Theorem last_custom_chain_preferred :
  (forall networkName,
      networkName <> HARDHAT_NETWORK_NAME ->
      getCurrentChainConfig networkName 5000 Sample.customChains
        = inr (Sample.chain "c2" 5000))
  /\ (forall networkName id customChains,
        ~ reserved networkName customChains ->
        (forall before c after,
            customChains = before ++ c :: after ->
            chainId c = id ->
            Forall (fun x => chainId x <> id) after ->
            getCurrentChainConfig networkName id customChains = inr c)
        /\ (forall b,
              Forall (fun x => chainId x <> id) customChains ->
              List.find (has_id id) builtinChains = Some b ->
              getCurrentChainConfig networkName id customChains = inr b)).
Proof.
  split; [|apply resolution_order].
  intros networkName Hname.
  assert (Hres : ~ reserved networkName Sample.customChains) by by intros [? _].
  destruct (resolution_order networkName 5000 Sample.customChains Hres) as [Hlast _].
  apply (Hlast [Sample.chain "c1" 5000] (Sample.chain "c2" 5000) [Sample.chain "c3" 4999]);
    [done|done|].
  repeat constructor. simpl. lia.
Qed.

(** C9. Resolution fails exactly when the network is the local
    development network that no custom chain names, or no entry has the
    observed chain id.  In the first case the error is the one for the
    unsupported local network; otherwise it is the not-found error, whose
    message contains the observed id in decimal. *)
Theorem chain_resolution_failures (networkName : string) (id : N)
    (customChains : list ChainConfig) :
  ((exists e, getCurrentChainConfig networkName id customChains = inl e)
     <-> reserved networkName customChains \/ unmatched id customChains)
  /\ (reserved networkName customChains ->
        getCurrentChainConfig networkName id customChains
          = inl HardhatNetworkNotSupportedError)
  /\ (~ reserved networkName customChains -> unmatched id customChains ->
        getCurrentChainConfig networkName id customChains
          = inl (ChainConfigNotFoundError id)
        /\ exists before after,
             message (ChainConfigNotFoundError id) = before +:+ decimal id +:+ after).
Proof.
  unfold Etherscan.getCurrentChainConfig.
  pose proof (reserved_test networkName customChains) as Htest.
  pose proof (resolve_none id customChains) as Hnone.
  destruct (String.eqb networkName HARDHAT_NETWORK_NAME
            && negb (existsb (has_name HARDHAT_NETWORK_NAME) customChains)).
  - assert (Hr : reserved networkName customChains) by by apply Htest.
    split; [|split]; [|done|by intros Hn].
    split; [by left | by eexists].
  - assert (Hr : ~ reserved networkName customChains).
    { intros Hr. apply Htest in Hr. discriminate Hr. }
    destruct (resolve id customChains) as [c|].
    + assert (Hu : ~ unmatched id customChains).
      { intros Hu. apply Hnone in Hu. discriminate Hu. }
      split; [|split]; [|done|done].
      split; [by intros [e He] | tauto].
    + assert (Hu : unmatched id customChains) by by apply Hnone.
      split; [|split]; [|done|].
      * split; [by right | by eexists].
      * intros _ _. split; [done|]. simpl. eauto.
Qed.

End ChainResolution.

(** The five cases of the unit tests, with a built-in table that holds
    goerli. *)
Example chain_resolution_test_cases :
  let hardhat_chain := Sample.chain "hardhat" 31337 in
  Etherscan.getCurrentChainConfig Sample.builtinChains "customChain2" 5000
    Sample.customChains = inr (Sample.chain "c2" 5000)
  /\ Etherscan.getCurrentChainConfig Sample.builtinChains "goerli" 5
       Sample.customChains
     = inr (Etherscan.mkChainConfig "goerli" 5 "https://api-goerli.etherscan.io/api"
              "https://goerli.etherscan.io")
  /\ Etherscan.getCurrentChainConfig Sample.builtinChains "hardhat" 31337
       Sample.customChains = inl Etherscan.HardhatNetworkNotSupportedError
  /\ Etherscan.getCurrentChainConfig Sample.builtinChains "hardhat" 31337
       (Sample.customChains ++ [hardhat_chain]) = inr hardhat_chain
  /\ Etherscan.getCurrentChainConfig Sample.builtinChains "someNetwork" 21343214123
       Sample.customChains = inl (Etherscan.ChainConfigNotFoundError 21343214123)
  /\ Etherscan.message (Etherscan.ChainConfigNotFoundError 21343214123)
     = "Trying to verify a contract in a network with chain id 21343214123, but the plugin doesn't recognize it as a supported chain.".
Proof. repeat split; reflexivity. Qed.

(** C8 on the network and tables of the unit test. *)
Lemma last_custom_chain_preferred_witness :
  Etherscan.getCurrentChainConfig Sample.builtinChains "customChain2" 5000
    Sample.customChains = inr (Sample.chain "c2" 5000)
  /\ Etherscan.getCurrentChainConfig Sample.builtinChains "goerli" 5 Sample.customChains
     = inr (Etherscan.mkChainConfig "goerli" 5 "https://api-goerli.etherscan.io/api"
              "https://goerli.etherscan.io").
Proof.
  destruct (last_custom_chain_preferred Sample.builtinChains) as [Hexample Hgeneral].
  split.
  - apply Hexample. discriminate.
  - assert (Hres : ~ Etherscan.reserved "goerli" Sample.customChains).
    { intros [Hname _]. discriminate Hname. }
    destruct (Hgeneral "goerli" 5 Sample.customChains Hres) as [_ Hbuiltin].
    apply Hbuiltin; [|reflexivity].
    repeat constructor; simpl; lia.
Defined.

(** C9 on the two failing unit tests. *)
Lemma chain_resolution_failures_witness :
  Etherscan.getCurrentChainConfig Sample.builtinChains "hardhat" 31337 Sample.customChains
    = inl Etherscan.HardhatNetworkNotSupportedError
  /\ Etherscan.getCurrentChainConfig Sample.builtinChains "someNetwork" 21343214123
       Sample.customChains
     = inl (Etherscan.ChainConfigNotFoundError 21343214123).
Proof.
  split.
  - destruct (chain_resolution_failures Sample.builtinChains "hardhat" 31337
                Sample.customChains) as (_ & Hreserved & _).
    apply Hreserved. split; [reflexivity|].
    repeat constructor; simpl; discriminate.
  - destruct (chain_resolution_failures Sample.builtinChains "someNetwork" 21343214123
                Sample.customChains) as (_ & _ & Hunmatched).
    apply Hunmatched.
    + intros [Hname _]. discriminate Hname.
    + repeat constructor; simpl; lia.
Defined.

(** * Further properties of the two compilers *)

(** ** The file system under [mkdirSync] *)

Module MkdirFacts.
Import NativeCompiler.

(** [mkdirSync] leaves every existing entry as it is. *)
Lemma mkdir_from_keeps (todo base : list string) entries entries' r k x :
  mkdir_from base todo entries = (entries', r) ->
  entries !! k = Some x -> entries' !! k = Some x.
Proof.
  revert base entries.
  induction todo as [|seg rest IH]; intros base entries Hrun Hk; simpl in Hrun.
  - by inversion Hrun; subst.
  - destruct (entries !! (base ++ [seg])) as [[|]|] eqn:Hhere.
    + by inversion Hrun; subst.
    + eauto.
    + eapply IH; [exact Hrun|].
      rewrite lookup_insert_ne; [done|]. intros <-. congruence.
Qed.

(** What [mkdirSync] adds is a directory on the way to its target. *)
Lemma mkdir_from_adds (todo base : list string) entries entries' r k x :
  mkdir_from base todo entries = (entries', r) ->
  entries' !! k = Some x ->
  entries !! k = Some x
  \/ (x = Dir /\ exists pre seg post, todo = pre ++ seg :: post /\ k = base ++ pre ++ [seg]).
Proof.
  revert base entries.
  induction todo as [|seg rest IH]; intros base entries Hrun Hk; simpl in Hrun.
  - inversion Hrun; subst. by left.
  - assert (Hdeeper : forall e0, mkdir_from (base ++ [seg]) rest e0 = (entries', r) ->
              e0 !! k = Some x
              \/ (x = Dir /\ exists pre s post,
                     seg :: rest = pre ++ s :: post /\ k = base ++ pre ++ [s])).
    { intros e0 Hr. destruct (IH _ _ Hr Hk) as [H|(-> & pre & s & post & -> & ->)].
      - by left.
      - right. split; [done|]. exists (seg :: pre), s, post.
        split; [done|]. by rewrite <- !app_assoc. }
    destruct (entries !! (base ++ [seg])) as [[|]|] eqn:Hhere.
    + inversion Hrun; subst. by left.
    + destruct (Hdeeper _ Hrun) as [H|H]; [by left | by right].
    + destruct (Hdeeper _ Hrun) as [H|H]; [|by right].
      destruct (decide (k = base ++ [seg])) as [->|Hne].
      * rewrite lookup_insert_eq in H. inversion H; subst.
        right. split; [done|]. by exists [], seg, rest.
      * rewrite lookup_insert_ne in H by done. by left.
Qed.

(** When [mkdirSync] returns, every folder on the way is a directory. *)
Lemma mkdir_from_all_dirs (todo base : list string) entries entries' :
  mkdir_from base todo entries = (entries', Return tt) ->
  forall pre seg post, todo = pre ++ seg :: post ->
    entries' !! (base ++ pre ++ [seg]) = Some Dir.
Proof.
  revert base entries.
  induction todo as [|seg rest IH]; intros base entries Hrun pre s post Heq.
  { by destruct pre. }
  simpl in Hrun.
  assert (Hstep : forall e0, e0 !! (base ++ [seg]) = Some Dir ->
            mkdir_from (base ++ [seg]) rest e0 = (entries', Return tt) ->
            entries' !! (base ++ pre ++ [s]) = Some Dir).
  { intros e0 Hd Hr. destruct pre as [|p pre'].
    - simpl in Heq. inversion Heq; subst. simpl.
      by eapply mkdir_from_keeps.
    - simpl in Heq. inversion Heq; subst.
      replace (base ++ (p :: pre') ++ [s]) with ((base ++ [p]) ++ pre' ++ [s])
        by (by rewrite <- !app_assoc).
      by eapply IH. }
  destruct (entries !! (base ++ [seg])) as [[|]|] eqn:Hhere.
  - discriminate.
  - by eapply Hstep.
  - eapply Hstep; [|exact Hrun]. by rewrite lookup_insert_eq.
Qed.

(** On a disk where every folder on the way is a directory, [mkdirSync]
    returns and changes nothing. *)
Lemma mkdir_from_present (todo base : list string) entries :
  (forall pre seg post, todo = pre ++ seg :: post ->
     entries !! (base ++ pre ++ [seg]) = Some Dir) ->
  mkdir_from base todo entries = (entries, Return tt).
Proof.
  revert base.
  induction todo as [|seg rest IH]; intros base Hall; [done|].
  pose proof (Hall [] seg rest eq_refl) as Hhere. simpl in Hhere.
  simpl. rewrite Hhere. apply IH.
  intros pre s post ->.
  specialize (Hall (seg :: pre) s post eq_refl).
  by rewrite <- !app_assoc in *.
Qed.

(** A file at the target, below directories, makes [mkdirSync] throw
    EEXIST without touching the disk. *)
Lemma mkdir_from_blocked (todo base : list string) entries :
  todo <> [] ->
  (forall pre seg post, todo = pre ++ seg :: post -> post <> [] ->
     entries !! (base ++ pre ++ [seg]) = Some Dir) ->
  entries !! (base ++ todo) = Some File ->
  mkdir_from base todo entries = (entries, Throw (system_error "EEXIST")).
Proof.
  revert base.
  induction todo as [|seg rest IH]; intros base Hne Hall Hfile; [done|].
  simpl. destruct (decide (rest = [])) as [->|Hrest].
  - by rewrite Hfile.
  - pose proof (Hall [] seg rest eq_refl Hrest) as Hhere.
    simpl in Hhere. rewrite Hhere.
    apply IH; [done| |by rewrite <- app_assoc].
    intros pre s post -> Hpost.
    specialize (Hall (seg :: pre) s post eq_refl Hpost).
    by rewrite <- !app_assoc in *.
Qed.

End MkdirFacts.

(** ** White space around a version *)

(** [trim] and [length] on strings with white space outside ASCII: a
    no-break space, a byte order mark and an ideographic space are
    trimmed; 130 no-break spaces are 130 units, not 260; a next-line
    character (U+0085) is no white space. *)
Example semver_unicode_examples :
  semver.gte (semver.of_bytes [194; 160] +:+ "0.8.22") "0.8.22" = Return true
  /\ semver.gte (semver.of_bytes [239; 187; 191] +:+ "0.7.0"
                   +:+ semver.of_bytes [227; 128; 128; 32; 226; 128; 169]) "0.6.9"
     = Return true
  /\ semver.gte (semver.of_bytes (concat (replicate 130 [194; 160])) +:+ "0.8.22")
       "0.8.22" = Return true
  /\ semver.utf16_length (semver.of_bytes (concat (replicate 130 [194; 160]))) = 130%nat
  /\ semver.utf16_length (semver.of_bytes [240; 159; 152; 128]) = 2%nat
  /\ is_Return (semver.parse (semver.of_bytes [194; 133] +:+ "0.8.22")) = false
  /\ is_Return (semver.parse ("0.8" +:+ semver.of_bytes [194; 160] +:+ ".22")) = false
  /\ is_Return (semver.parse (String.concat "" (replicate 251 " ") +:+ "0.8.22")) = false.
Proof. repeat split; vm_compute; reflexivity. Qed.

(** ** [semver.gte] against a plain release *)

Module GateFacts.

(** Every exception of [new SemVer] is a [TypeError]. *)
Lemma parse_throws_TypeError version e :
  semver.parse version = Throw e -> exists text, e = JsError "TypeError" text.
Proof.
  unfold semver.parse, semver.invalid_version.
  repeat case_match; intros [= <-]; eauto.
Qed.

(** [gte] against a release without tags is the arithmetic comparison of
    the triples, a prerelease of the release itself falling short. *)
Lemma gte_reaches version release v M m p b :
  semver.parse version = Return v ->
  semver.parse release = Return (semver.mkSemVer M m p [] []) ->
  semver.gte version release = Return b ->
  b = true <-> reaches v M m p.
Proof.
  intros Hv Hr. unfold semver.gte. rewrite Hv, Hr.
  unfold semver.compare, semver.compareMain, semver.comparePre, reaches. simpl.
  destruct (N.compare_spec (semver.major v) M);
    destruct (N.compare_spec (semver.minor v) m);
    destruct (N.compare_spec (semver.patch v) p);
    destruct (semver.prerelease v); simpl; intros [= <-];
    split; intros H'; try done; try lia; intuition (try lia; try congruence).
Qed.

End GateFacts.

Section NativeCompilerMore.
Import NativeCompiler NativeFacts MkdirFacts GateFacts.

Context {CompilerInput CompilerOutput : Type}.
Variable JSON_stringify : CompilerInput -> string.
Variable JSON_parse : string -> Result CompilerOutput.
Variable os_tmpdir : list string.
Variable os_execFile : string -> list string -> N -> Result ChildProcess.
Variable _pathToSolc : string.

Local Abbreviation compile_args := (NativeCompiler.compile_args os_tmpdir).
Local Abbreviation compile :=
  (NativeCompiler.compile JSON_stringify JSON_parse os_tmpdir os_execFile _pathToSolc).
Local Abbreviation tmpFolder := (path_join os_tmpdir "hardhat-solc").

(** The argument list in the [--base-path] range, [mkdirSync] included. *)
Lemma compile_args_base_path version s :
  semver.gte version "0.8.22" = Return false ->
  semver.gte version "0.6.9" = Return true ->
  compile_args (Some version) s
    = (mkState (mkdir_from [] tmpFolder (fs s)).1 (exec_calls s),
       match (mkdir_from [] tmpFolder (fs s)).2 with
       | Return _ => Return ["--standard-json"; "--base-path"; path_show tmpFolder]
       | Throw e => Throw e
       end).
Proof.
  intros H22 H9.
  unfold NativeCompiler.compile_args, bind, lift, ret, mkdirSync_recursive.
  rewrite H22, H9.
  by destruct (mkdir_from [] tmpFolder (fs s)) as [entries [[]|e]].
Qed.

(** X1. When the child is started, takes its input and exits cleanly,
    [compile] returns the parse of what the child wrote to its output (a
    text that does not parse makes [compile] throw the parser's error), and
    the only trace left is the one [execFile] call. *)
Theorem native_compile_returns_parsed_stdout (version : option string)
    (input : CompilerInput) (s s1 : State) (arguments : list string)
    (child : ChildProcess) (stdout : string) :
  compile_args version s = (s1, Return arguments) ->
  os_execFile _pathToSolc arguments MAX_BUFFER = Return child ->
  stdin_write child (JSON_stringify input) = Return tt ->
  stdin_end child = Return tt ->
  on_exit child (JSON_stringify input) = (None, stdout) ->
  compile version input s
    = (mkState (fs s1) (exec_calls s ++ [mkExecCall _pathToSolc arguments MAX_BUFFER]),
       JSON_parse stdout).
Proof.
  intros Hargs Hexec Hw He Hexit.
  pose proof (compile_args_no_call _ _ _ _ _ Hargs) as Hcalls.
  unfold NativeCompiler.compile, NativeCompiler.run, start, execFile, try_catch,
    bind, modify, lift, ret, throw.
  rewrite Hargs. simpl. rewrite Hexec. simpl. rewrite Hw. simpl. rewrite He. simpl.
  by rewrite Hexit, Hcalls.
Qed.

(** X2. A version string that [semver] does not accept makes [compile]
    throw the package's [TypeError], as it is, before anything else
    happens: no process is started and the file system is untouched. *)
Theorem native_invalid_version_throws (version : string) (input : CompilerInput)
    (s : State) (e : Thrown) :
  semver.parse version = Throw e ->
  compile (Some version) input s = (s, Throw e)
  /\ exists text, e = JsError "TypeError" text.
Proof.
  intros Hparse. split; [|by eapply parse_throws_TypeError].
  unfold NativeCompiler.compile, NativeCompiler.compile_args, bind, lift, semver.gte.
  by rewrite Hparse.
Qed.

(** X3. In the [--base-path] range, a file sitting where the temporary
    folder should go (its parent folders being directories) makes
    [compile] throw [mkdirSync]'s EEXIST error, not wrapped in a
    [HardhatError]; no process is started and the disk is unchanged. *)
Theorem native_tmp_folder_blocked (version : string) (input : CompilerInput) (s : State) :
  semver.gte version "0.8.22" = Return false ->
  semver.gte version "0.6.9" = Return true ->
  (forall pre seg post, tmpFolder = pre ++ seg :: post -> post <> [] ->
     fs s !! (pre ++ [seg]) = Some Dir) ->
  fs s !! tmpFolder = Some File ->
  compile (Some version) input s = (s, Throw (system_error "EEXIST")).
Proof.
  intros H22 H9 Hdirs Hfile.
  apply compile_args_throw. rewrite (compile_args_base_path _ _ H22 H9).
  rewrite (mkdir_from_blocked tmpFolder [] (fs s)); [by destruct s| |done|done].
  unfold path_join. by destruct os_tmpdir.
Qed.

(** X4. Building the argument list is idempotent: once it has been built,
    building it again from the state it left gives the same list and
    leaves that state as it is (the folder is created once). *)
Theorem native_args_idempotent (version : option string) (s s1 : State)
    (arguments : list string) :
  compile_args version s = (s1, Return arguments) ->
  compile_args version s1 = (s1, Return arguments).
Proof.
  destruct version as [version|]; [|by intros [= <- <-]].
  destruct (semver.gte version "0.8.22") as [[|]|e] eqn:H22.
  - unfold NativeCompiler.compile_args, bind, lift, ret. rewrite H22.
    by intros [= <- <-].
  - destruct (semver.gte version "0.6.9") as [[|]|e] eqn:H9.
    + rewrite !(compile_args_base_path _ _ H22 H9).
      destruct (mkdir_from [] tmpFolder (fs s)) as [entries [[]|e]] eqn:Hmk; [|done].
      simpl. intros [= <- <-]. simpl.
      rewrite (mkdir_from_present tmpFolder [] entries); [done|].
      intros pre seg post Heq. by eapply (mkdir_from_all_dirs _ []).
    + unfold NativeCompiler.compile_args, bind, lift, ret. rewrite H22, H9.
      by intros [= <- <-].
    + unfold NativeCompiler.compile_args, bind, lift, ret. by rewrite H22, H9.
  - unfold NativeCompiler.compile_args, bind, lift, ret. by rewrite H22.
Qed.


(** The file system after [compile] is the one the argument list left. *)
Lemma compile_fs version input s :
  fs (compile version input s).1 = fs (compile_args version s).1.
Proof.
  destruct (compile_args version s) as [s1 [arguments|e]] eqn:Hargs.
  - by destruct (compile_passes_args JSON_stringify JSON_parse os_tmpdir os_execFile
                   _pathToSolc version input s s1 arguments Hargs) as [_ ->].
  - by rewrite (compile_args_throw JSON_stringify JSON_parse os_tmpdir os_execFile
                  _pathToSolc version input s s1 e Hargs).
Qed.

(** The argument list either leaves the disk alone or runs [mkdirSync]
    on the temporary folder. *)
Lemma compile_args_fs version s :
  fs (compile_args version s).1 = fs s
  \/ fs (compile_args version s).1 = (mkdir_from [] tmpFolder (fs s)).1.
Proof.
  unfold NativeCompiler.compile_args, bind, lift, ret, mkdirSync_recursive.
  destruct version as [version|]; [|by left].
  destruct (semver.gte version "0.8.22") as [[|]|e]; try by left.
  destruct (semver.gte version "0.6.9") as [[|]|e]; try by left.
  right. by destruct (mkdir_from [] tmpFolder (fs s)) as [entries [[]|e]].
Qed.

(** X5. [compile] never changes or removes an entry of the file system,
    and an entry it adds is a directory on the way to the temporary
    folder. *)
Theorem native_compile_only_adds_tmp_dirs (version : option string)
    (input : CompilerInput) (s : State) (k : list string) (x : Kind) :
  (fs s !! k = Some x -> fs (compile version input s).1 !! k = Some x)
  /\ (fs (compile version input s).1 !! k = Some x ->
      fs s !! k = Some x \/ (x = Dir /\ k `prefix_of` tmpFolder)).
Proof.
  rewrite compile_fs.
  destruct (compile_args_fs version s) as [-> | ->]; [by split; [|left]|].
  destruct (mkdir_from [] tmpFolder (fs s)) as [entries r] eqn:Hmk. simpl.
  split.
  - by eapply mkdir_from_keeps.
  - intros Hk.
    destruct (mkdir_from_adds _ _ _ _ _ _ _ Hmk Hk)
      as [H|(-> & pre & seg & post & Heq & ->)]; [by left|].
    right. split; [done|]. exists post. simpl. by rewrite Heq, <- app_assoc.
Qed.

(** X6. One call of [compile] starts at most one process: none when the
    argument list cannot be built (the exception is then [compile]'s own),
    and otherwise exactly one, of the configured executable, with the
    list built and an output limit of 500 MiB. *)
Theorem native_compile_spawns_at_most_once (version : option string)
    (input : CompilerInput) (s : State) :
  match (compile_args version s).2 with
  | Throw e =>
      (compile version input s).2 = Throw e
      /\ exec_calls (compile version input s).1 = exec_calls s
  | Return arguments =>
      exec_calls (compile version input s).1
        = exec_calls s ++ [mkExecCall _pathToSolc arguments 524288000]
  end.
Proof.
  destruct (compile_args version s) as [s1 [arguments|e]] eqn:Hargs; simpl.
  - by destruct (compile_passes_args JSON_stringify JSON_parse os_tmpdir os_execFile
                   _pathToSolc version input s s1 arguments Hargs) as [-> _].
  - rewrite (compile_args_throw JSON_stringify JSON_parse os_tmpdir os_execFile
               _pathToSolc version input s s1 e Hargs). simpl.
    split; [done|]. by eapply compile_args_no_call.
Qed.

(** X7. For every well-formed version the choice of arguments is the
    arithmetic one: a version that reaches 0.8.22 gets
    [--no-import-callback] and leaves the disk alone; one that does not
    but reaches 0.6.9 gets [--base-path] with the temporary folder, after
    [mkdirSync]; any older one gets the mode flag only.  A prerelease of
    0.8.22 or of 0.6.9 does not reach it. *)
Theorem native_args_by_release (version : string) (v : semver.SemVer) (s : State) :
  semver.parse version = Return v ->
  (reaches v 0 8 22 ->
     compile_args (Some version) s
       = (s, Return ["--standard-json"; "--no-import-callback"]))
  /\ (~ reaches v 0 8 22 -> reaches v 0 6 9 ->
       compile_args (Some version) s
         = (mkState (mkdir_from [] tmpFolder (fs s)).1 (exec_calls s),
            match (mkdir_from [] tmpFolder (fs s)).2 with
            | Return _ => Return ["--standard-json"; "--base-path"; path_show tmpFolder]
            | Throw e => Throw e
            end))
  /\ (~ reaches v 0 6 9 ->
       compile_args (Some version) s = (s, Return ["--standard-json"])).
Proof.
  intros Hv.
  assert (H22 : exists b, semver.gte version "0.8.22" = Return b
                          /\ (b = true <-> reaches v 0 8 22)).
  { destruct (semver.gte version "0.8.22") as [b|e] eqn:Hg.
    - exists b. split; [done|]. by eapply (gte_reaches version "0.8.22").
    - unfold semver.gte in Hg. by rewrite Hv in Hg. }
  assert (H9 : exists b, semver.gte version "0.6.9" = Return b
                         /\ (b = true <-> reaches v 0 6 9)).
  { destruct (semver.gte version "0.6.9") as [b|e] eqn:Hg.
    - exists b. split; [done|]. by eapply (gte_reaches version "0.6.9").
    - unfold semver.gte in Hg. by rewrite Hv in Hg. }
  destruct H22 as (b22 & H22 & Hb22), H9 as (b9 & H9 & Hb9).
  split; [|split].
  - intros Hr. apply Hb22 in Hr. subst b22.
    unfold NativeCompiler.compile_args, bind, lift, ret. by rewrite H22.
  - intros Hn Hr. apply Hb9 in Hr. subst b9.
    destruct b22; [by destruct Hn; apply Hb22|].
    by apply compile_args_base_path.
  - intros Hn. destruct b9; [by destruct Hn; apply Hb9|].
    destruct b22.
    + exfalso. apply Hn. assert (Hr : reaches v 0 8 22) by by apply Hb22.
      unfold reaches in *. lia.
    + unfold NativeCompiler.compile_args, bind, lift, ret. by rewrite H22, H9.
Qed.

End NativeCompilerMore.

(** X1 with the sample child, which answers "{}". *)
Lemma native_compile_returns_parsed_stdout_witness :
  NativeCompiler.compile Sample.stringify Sample.parse Sample.tmpdir Sample.execFile_ok
    "solc" None "{}" Sample.disk
  = (NativeCompiler.mkState (NativeCompiler.fs Sample.disk)
       [NativeCompiler.mkExecCall "solc" ["--standard-json"] NativeCompiler.MAX_BUFFER],
     Return "{}").
Proof.
  exact (native_compile_returns_parsed_stdout Sample.stringify Sample.parse Sample.tmpdir
           Sample.execFile_ok "solc" None "{}" Sample.disk Sample.disk
           ["--standard-json"] Sample.healthy_child "{}"
           eq_refl eq_refl eq_refl eq_refl eq_refl).
Defined.

(** X2 with a version that is a word. *)
Lemma native_invalid_version_throws_witness :
  NativeCompiler.compile Sample.stringify Sample.parse Sample.tmpdir Sample.execFile_ok
    "solc" (Some "latest") "{}" Sample.disk
  = (Sample.disk, Throw (semver.invalid_version "latest")).
Proof.
  exact (proj1 (native_invalid_version_throws Sample.stringify Sample.parse Sample.tmpdir
                  Sample.execFile_ok "solc" "latest" "{}" Sample.disk
                  (semver.invalid_version "latest") eq_refl)).
Defined.

(** X3 with a file at [/tmp/hardhat-solc]. *)
Lemma native_tmp_folder_blocked_witness :
  NativeCompiler.compile Sample.stringify Sample.parse Sample.tmpdir Sample.execFile_ok
    "solc" (Some "0.7.0") "{}" Scenario.blocked_disk
  = (Scenario.blocked_disk, Throw (NativeCompiler.system_error "EEXIST")).
Proof.
  apply (native_tmp_folder_blocked Sample.stringify Sample.parse Sample.tmpdir
           Sample.execFile_ok "solc" "0.7.0" "{}" Scenario.blocked_disk);
    [reflexivity | reflexivity | | reflexivity].
  intros pre seg post Heq Hpost.
  destruct pre as [|a [|b [|c pre]]]; simpl in Heq; inversion Heq; subst.
  - reflexivity.
  - by destruct Hpost.
Defined.

(** X4 at version "0.7.0": the second run finds the folder in place. *)
Lemma native_args_idempotent_witness :
  NativeCompiler.compile_args Sample.tmpdir (Some "0.7.0") Scenario.prepared_disk
  = (Scenario.prepared_disk,
     Return ["--standard-json"; "--base-path"; "/tmp/hardhat-solc"]).
Proof.
  exact (native_args_idempotent Sample.tmpdir (Some "0.7.0") Sample.disk
           Scenario.prepared_disk
           ["--standard-json"; "--base-path"; "/tmp/hardhat-solc"] eq_refl).
Defined.

(** X5 at version "0.7.0": [/tmp] stays a directory. *)
Lemma native_compile_only_adds_tmp_dirs_witness :
  NativeCompiler.fs
    (NativeCompiler.compile Sample.stringify Sample.parse Sample.tmpdir Sample.execFile_ok
       "solc" (Some "0.7.0") "{}" Sample.disk).1 !! ["tmp"]
  = Some NativeCompiler.Dir.
Proof.
  apply (proj1 (native_compile_only_adds_tmp_dirs Sample.stringify Sample.parse
                  Sample.tmpdir Sample.execFile_ok "solc" (Some "0.7.0") "{}"
                  Sample.disk ["tmp"] NativeCompiler.Dir)).
  reflexivity.
Defined.

(** X7 at a release candidate of 0.8.22, which gets [--base-path]. *)
Lemma native_args_by_release_witness :
  NativeCompiler.compile_args Sample.tmpdir (Some "0.8.22-rc.1") Sample.disk
  = (Scenario.prepared_disk,
     Return ["--standard-json"; "--base-path"; "/tmp/hardhat-solc"]).
Proof.
  destruct (native_args_by_release Sample.tmpdir "0.8.22-rc.1"
              (semver.mkSemVer 0 8 22
                 [semver.Alphanumeric "rc"; semver.Numeric 1] [])
              Sample.disk eq_refl) as (_ & Hbase & _).
  apply Hbase.
  - unfold reaches.
    cbn [semver.major semver.minor semver.patch semver.prerelease].
    intros [H|[_ [H|[_ [H|[_ H]]]]]]; [lia | lia | lia | discriminate H].
  - unfold reaches.
    cbn [semver.major semver.minor semver.patch semver.prerelease].
    right. split; [reflexivity|]. left. lia.
Defined.

(** ** More on the in-process [Compiler] *)

Section CompilerMore.
Import Compiler.

Context {CompilerInput CompilerOutput Exports : Type}.
Variable JSON_stringify : CompilerInput -> string.
Variable JSON_parse : string -> Result CompilerOutput.
Variable node_require : option (gmap string Hook) -> string -> Result Exports.
Variable solcWrapper : Exports -> Result (string -> Result string).
Variable _pathToSolcJs : string.

Local Abbreviation loadCompilerSources := (Compiler._loadCompilerSources node_require).
Local Abbreviation getSolc := (Compiler.getSolc node_require solcWrapper _pathToSolcJs).
Local Abbreviation getSolc_times :=
  (Compiler.getSolc_times node_require solcWrapper _pathToSolcJs).
Local Abbreviation compile :=
  (Compiler.compile JSON_stringify JSON_parse node_require solcWrapper _pathToSolcJs).
Local Abbreviation compile_each :=
  (Compiler.compile_each JSON_stringify JSON_parse node_require solcWrapper _pathToSolcJs).

(** The extension table as [require] sees it during a load. *)
Local Abbreviation during s := (insert ".js" RawLoader <$> _extensions s).

(** X8. When the bundle loads in a host that has an extension table, the
    load returns the bundle's exports and leaves the table reading as
    before at every key (the very same table when it had a ".js" entry),
    after exactly two writes to it. *)
Theorem guarded_load_success_restores_table (path : string) (s : State)
    (table : gmap string Hook) (exports : Exports) :
  _extensions s = Some table ->
  node_require (Some (<[".js" := RawLoader]> table)) path = Return exports ->
  let '(s', outcome) := loadCompilerSources path s in
  outcome = Return exports
  /\ (exists table', _extensions s' = Some table'
                     /\ forall key, read table' key = read table key)
  /\ (is_Some (table !! ".js") -> _extensions s' = Some table)
  /\ hook_writes (trace s') = S (S (hook_writes (trace s))).
Proof.
  intros Hx Hreq. rewrite (load_hooked_success _ _ _ _ _ Hx Hreq). simpl.
  split; [done|]. split; [|split].
  - eexists; split; [done|]. intros key. unfold read.
    destruct (decide (key = ".js")) as [->|Hne].
    + by rewrite lookup_insert_eq.
    + by rewrite !lookup_insert_ne.
  - intros [h Hh]. unfold read. rewrite Hh. simpl.
    by rewrite insert_insert_eq, insert_id.
  - rewrite !hook_writes_snoc. simpl. lia.
Qed.

(** X9. In a host that has an extension table, the bundle is required
    while the ".js" entry is the raw loader and every other entry is the
    host's own, whatever loader the host had for ".js" and whether or not
    the load succeeds; it is the only [require] of the load. *)
Theorem guarded_load_requires_under_raw_loader (path : string) (s : State)
    (table : gmap string Hook) :
  _extensions s = Some table ->
  let '(s', outcome) := loadCompilerSources path s in
  outcome = node_require (Some (<[".js" := RawLoader]> table)) path
  /\ filter is_require (trace s')
     = filter is_require (trace s)
       ++ [EvRequire path (Some (<[".js" := RawLoader]> table))]
  /\ read (<[".js" := RawLoader]> table) ".js" = RawLoader
  /\ forall key, key <> ".js" -> <[".js" := RawLoader]> table !! key = table !! key.
Proof.
  intros Hx.
  assert (Hread : read (<[".js" := RawLoader]> table) ".js" = RawLoader).
  { unfold read. by rewrite lookup_insert_eq. }
  assert (Hother : forall key, key <> ".js" ->
                     <[".js" := RawLoader]> table !! key = table !! key).
  { intros key Hne. by rewrite lookup_insert_ne. }
  destruct (node_require (Some (<[".js" := RawLoader]> table)) path) as [x|e] eqn:Hreq.
  - rewrite (load_hooked_success _ _ _ _ _ Hx Hreq). simpl.
    rewrite !filter_app. simpl. by rewrite !app_nil_r.
  - rewrite (load_hooked_failure _ _ _ _ _ Hx Hreq). simpl.
    rewrite !filter_app. simpl. by rewrite !app_nil_r.
Qed.



Local Abbreviation failing := (load_fails node_require solcWrapper _pathToSolcJs).




(** X11. Once a handle is cached, [compile] only calls it: a run of
    [compile] calls keeps the handle, the extension table and the handle
    counter, adds to the trace one compiler call per input, in order and
    on the serialised input, and loads nothing; each outcome is the parse
    of what the handle returned. *)
Theorem cached_compile_only_invokes (inputs : list CompilerInput) (s : State) (h : Solc) :
  _loadedSolc s = Some h ->
  let '(s', outcomes) := compile_each inputs s in
  _loadedSolc s' = Some h
  /\ _extensions s' = _extensions s
  /\ next_ref s' = next_ref s
  /\ trace s'
     = trace s ++ map (fun input => EvSolcCompile (ref h) (JSON_stringify input)) inputs
  /\ outcomes
     = map (fun input => match solc_compile h (JSON_stringify input) with
                         | Throw e => Throw e
                         | Return jsonOutput => JSON_parse jsonOutput
                         end) inputs.
Proof.
  revert s. induction inputs as [|input rest IH]; intros s Hc.
  { simpl. by rewrite app_nil_r. }
  simpl. rewrite compile_unfold, (getSolc_cached _ _ _ _ _ Hc).
  match goal with
  | |- context [compile_each rest ?st] =>
      specialize (IH st Hc); destruct (compile_each rest st) as [s2 rs]
  end.
  simpl in *. destruct IH as (H1 & H2 & H3 & H4 & H5).
  repeat split; try done.
  - by rewrite H4, <- app_assoc.
  - by rewrite H5.
Qed.

(** The handle counter moves by at most one over any run of calls. *)
Lemma getSolc_times_next_ref n s :
  (next_ref (getSolc_times n s).1 <= S (next_ref s))%nat.
Proof.
  revert s. induction n as [|n IH]; intros s; [simpl; lia|].
  destruct (_loadedSolc s) as [h|] eqn:Hc.
  { rewrite (getSolc_times_cached _ _ _ _ _ _ Hc). simpl. lia. }
  simpl. rewrite (getSolc_uncached _ _ _ _ Hc).
  pose proof (load_counts node_require _pathToSolcJs s) as (_ & _ & _ & Href).
  destruct (loadCompilerSources _pathToSolcJs s) as [s0 [exports|e0]]; simpl in *.
  - destruct (solcWrapper exports) as [compile_fn|e1].
    + rewrite (getSolc_times_cached _ _ _ n _ (mkSolc (next_ref s0) compile_fn));
        [simpl; lia | done].
    + specialize (IH s0). destruct (getSolc_times n s0) as [s2 rs]. simpl in *. lia.
  - specialize (IH s0). destruct (getSolc_times n s0) as [s2 rs]. simpl in *. lia.
Qed.

(** X12. Over any run of [getSolc] calls, from any state and whichever
    calls throw, an instance wraps a compiler at most once, and all the
    handles the calls return are one and the same object. *)
Theorem instance_has_one_handle (n : nat) (s : State) :
  (next_ref (getSolc_times n s).1 <= S (next_ref s))%nat
  /\ forall h1 h2,
       In (Return h1) (getSolc_times n s).2 ->
       In (Return h2) (getSolc_times n s).2 ->
       h1 = h2.
Proof.
  split; [apply getSolc_times_next_ref|].
  intros h1 h2. apply getSolc_handles_agree.
Qed.

End CompilerMore.

(** X8 on the sample host, whose ".js" loader is the host's again. *)
Lemma guarded_load_success_restores_table_witness :
  let '(s', outcome) :=
    Compiler._loadCompilerSources Sample.node_require Sample.bundle_path
      (Compiler.new (Some Sample.host_table)) in
  outcome = Return "soljson"
  /\ (exists table', Compiler._extensions s' = Some table'
        /\ forall key, Compiler.read table' key = Compiler.read Sample.host_table key)
  /\ (is_Some (Sample.host_table !! ".js") ->
        Compiler._extensions s' = Some Sample.host_table)
  /\ Compiler.hook_writes (Compiler.trace s')
     = S (S (Compiler.hook_writes
               (Compiler.trace (Compiler.new (Some Sample.host_table))))).
Proof.
  exact (guarded_load_success_restores_table Sample.node_require Sample.bundle_path
           (Compiler.new (Some Sample.host_table)) Sample.host_table "soljson"
           eq_refl eq_refl).
Defined.

(** X9 on the sample host. *)
Lemma guarded_load_requires_under_raw_loader_witness :
  let '(s', outcome) :=
    Compiler._loadCompilerSources Sample.node_require Sample.bundle_path
      (Compiler.new (Some Sample.host_table)) in
  outcome
    = Sample.node_require (Some (<[".js" := Compiler.RawLoader]> Sample.host_table))
        Sample.bundle_path
  /\ filter Compiler.is_require (Compiler.trace s')
     = filter Compiler.is_require (Compiler.trace (Compiler.new (Some Sample.host_table)))
       ++ [Compiler.EvRequire Sample.bundle_path
             (Some (<[".js" := Compiler.RawLoader]> Sample.host_table))]
  /\ Compiler.read (<[".js" := Compiler.RawLoader]> Sample.host_table) ".js"
     = Compiler.RawLoader
  /\ forall key, key <> ".js" ->
       <[".js" := Compiler.RawLoader]> Sample.host_table !! key
       = Sample.host_table !! key.
Proof.
  exact (guarded_load_requires_under_raw_loader Sample.node_require Sample.bundle_path
           (Compiler.new (Some Sample.host_table)) Sample.host_table eq_refl).
Defined.


(** X11 on an instance that has its handle, two inputs. *)
Lemma cached_compile_only_invokes_witness :
  let '(s', outcomes) :=
    Compiler.compile_each Sample.stringify Sample.parse Sample.node_require
      Sample.solcWrapper Sample.bundle_path ["a"; "b"] Scenario.loaded in
  Compiler._loadedSolc s' = Some Scenario.loaded_handle
  /\ Compiler._extensions s' = Compiler._extensions Scenario.loaded
  /\ Compiler.next_ref s' = Compiler.next_ref Scenario.loaded
  /\ Compiler.trace s'
     = Compiler.trace Scenario.loaded
       ++ map (fun input => Compiler.EvSolcCompile (Compiler.ref Scenario.loaded_handle)
                              (Sample.stringify input)) ["a"; "b"]
  /\ outcomes
     = map (fun input =>
              match Compiler.solc_compile Scenario.loaded_handle (Sample.stringify input) with
              | Throw e => Throw e
              | Return jsonOutput => Sample.parse jsonOutput
              end) ["a"; "b"].
Proof.
  exact (cached_compile_only_invokes Sample.stringify Sample.parse Sample.node_require
           Sample.solcWrapper Sample.bundle_path ["a"; "b"] Scenario.loaded
           Scenario.loaded_handle eq_refl).
Defined.

(** X12 on the sample host, three calls: one handle, wrapped once. *)
Lemma instance_has_one_handle_witness :
  (Compiler.next_ref
     (Compiler.getSolc_times Sample.node_require Sample.solcWrapper Sample.bundle_path 3
        (Compiler.new (Some Sample.host_table))).1 <= 1)%nat.
Proof.
  exact (proj1 (instance_has_one_handle Sample.node_require Sample.solcWrapper
                  Sample.bundle_path 3 (Compiler.new (Some Sample.host_table)))).
Defined.

(** ** More on chain resolution *)

Section ChainResolutionMore.
Import Etherscan ChainFacts.

Variable builtinChains : list ChainConfig.

Local Abbreviation getCurrentChainConfig := (Etherscan.getCurrentChainConfig builtinChains).

(** X13. A chain that resolution returns has the observed chain id, and
    it is one of the custom chains, or else no custom chain has that id
    and it is one of the built-in ones. *)
Theorem resolution_returns_a_matching_entry (networkName : string) (id : N)
    (customChains : list ChainConfig) (c : ChainConfig) :
  getCurrentChainConfig networkName id customChains = inr c ->
  chainId c = id
  /\ (In c customChains
      \/ (Forall (fun x => chainId x <> id) customChains /\ In c builtinChains)).
Proof.
  unfold Etherscan.getCurrentChainConfig.
  destruct (String.eqb networkName HARDHAT_NETWORK_NAME
            && negb (existsb (has_name HARDHAT_NETWORK_NAME) customChains)); [done|].
  rewrite resolve_custom_first.
  destruct (last_match id customChains) as [c0|] eqn:Hlast.
  - intros [= <-]. unfold last_match in Hlast.
    apply find_some in Hlast as [Hin Hid].
    split; [by apply N.eqb_eq|]. left. by apply in_rev.
  - apply last_match_none in Hlast.
    destruct (List.find (has_id id) builtinChains) as [b|] eqn:Hb; [|done].
    intros [= <-]. apply find_some in Hb as [Hin Hid].
    split; [by apply N.eqb_eq|]. right. by split.
Qed.

End ChainResolutionMore.

(** X13 on the built-in table: goerli is returned for id 5. *)
Lemma resolution_returns_a_matching_entry_witness :
  Etherscan.chainId
    (Etherscan.mkChainConfig "goerli" 5 "https://api-goerli.etherscan.io/api"
       "https://goerli.etherscan.io") = 5
  /\ (In (Etherscan.mkChainConfig "goerli" 5 "https://api-goerli.etherscan.io/api"
            "https://goerli.etherscan.io") Sample.customChains
      \/ (Forall (fun x => Etherscan.chainId x <> 5) Sample.customChains
          /\ In (Etherscan.mkChainConfig "goerli" 5 "https://api-goerli.etherscan.io/api"
                   "https://goerli.etherscan.io") Sample.builtinChains)).
Proof.
  exact (resolution_returns_a_matching_entry Sample.builtinChains "goerli" 5
           Sample.customChains _ eq_refl).
Defined.
